(** * rainbow-tree: the focus-set resolver and the depth-style generator

    A shallow embedding of [src/main.ts] (the Obsidian plugin
    [RainbowTreePlugin]) and the properties of its methods
    [updateFocusedPaths], [updateBaseStyles], [updateFocusStyles],
    [onload], [onunload], [loadSettings] and [saveSettings], of its two
    event handlers and of the callbacks of its settings tab.

    Layout: the JavaScript string primitives the plugin calls, the part of
    the DOM it touches, the host workspace, the plugin itself, then the
    theorems. *)

From Stdlib Require Import Ascii.
From stdpp Require Import base option list strings gmap sets.

Set Default Proof Using "Type".
#[local] Set Warnings "-clear-no-such-hyp".

(* ===================================================================== *)
(** ** JavaScript primitives used by the plugin *)
(* ===================================================================== *)

Module JS.

(** What [a[i]] can evaluate to on a [string[]]: an element, or
    [undefined] when the index is out of range or not a number. *)
Inductive value : Type :=
  | Undefined
  | Str (s : string).

(** String conversion, as done by [+] with a string operand and by a
    template-literal placeholder. *)
Definition to_string (v : value) : string :=
  match v with
  | Undefined => "undefined"
  | Str s => s
  end.

(** [a % b] on non-negative integers; [None] is [NaN] (when [b] is 0). *)
Definition rem (a b : nat) : option nat :=
  if b =? 0 then None else Some (a mod b).

(** [a[i]] where [i] is a number ([None] for [NaN]). *)
Definition index (a : list string) (i : option nat) : value :=
  match i with
  | None => Undefined
  | Some n => match a !! n with
              | Some s => Str s
              | None => Undefined
              end
  end.

(** [s.repeat(n)] *)
Fixpoint repeat (s : string) (n : nat) : string :=
  match n with
  | 0 => ""
  | S n' => s +:+ repeat s n'
  end.

(** [s.split(sep)] for a one-character separator: the maximal
    separator-free pieces of [s], in order; never the empty array. *)
Fixpoint split (sep : ascii) (s : string) : list string :=
  match s with
  | EmptyString => [""]
  | String c s' =>
      if decide (c = sep) then "" :: split sep s'
      else match split sep s' with
           | seg :: segs => String c seg :: segs
           | [] => [String c ""]
           end
  end.

(** [a.join(sep)] *)
Fixpoint join (sep : string) (a : list string) : string :=
  match a with
  | [] => ""
  | [s] => s
  | s :: rest => s +:+ sep +:+ join sep rest
  end.

(** [s.includes(t)] *)
Fixpoint includes (s t : string) : bool :=
  String.prefix t s ||
  match s with
  | EmptyString => false
  | String _ s' => includes s' t
  end.

End JS.

(** Strings are sequences of bytes here and of UTF-16 code units in
    JavaScript; the separator is a single unit in both, and splitting at
    it, joining and appending do not look inside the other units. *)

(** The path separator of vault paths. *)
Definition slash : ascii := "/"%char.

(* ===================================================================== *)
(** ** Settings (lines 3-15) *)
(* ===================================================================== *)

Inductive LineStyle : Type := solid | dashed | dotted.

Definition LineStyle_to_string (l : LineStyle) : string :=
  match l with
  | solid => "solid"
  | dashed => "dashed"
  | dotted => "dotted"
  end.

Record NFLSettings : Type := mkSettings {
  colors : list string;
  unfocusedColor : string;
  enableFocus : bool;
  lineStyle : LineStyle
}.

Definition DEFAULT_SETTINGS : NFLSettings :=
  {| colors := ["#ff5252"; "#f99d6c"; "#53c169"; "#747dfb"; "#f098fb"];
     unfocusedColor := "#999999";
     enableFocus := true;
     lineStyle := solid |}.

(* ===================================================================== *)
(** ** The focus-set resolver: the pure core of [updateFocusedPaths] *)
(* ===================================================================== *)

(** One turn of the inner loop (lines 138-141): the state is
    [currentPath] and the set under construction. *)
Definition ancestorStep (pathSegments : list string)
    (st : string * gset string) (i : nat) : string * gset string :=
  let currentPath :=
    st.1 +:+ ((if 0 <? i then "/" else "") +:+
              JS.to_string (JS.index pathSegments (Some i))) in
  (currentPath, st.2 ∪ {[ currentPath ]}).

(** Lines 134-141: what one open file contributes. *)
Definition addFile (focusedPaths : gset string) (filePath : string)
    : gset string :=
  let focusedPaths := focusedPaths ∪ {[ filePath ]} in
  let pathSegments := JS.split slash filePath in
  (foldl (ancestorStep pathSegments) ("", focusedPaths)
         (seq 0 (length pathSegments - 1))).2.


(* ===================================================================== *)
(** ** The part of the DOM the plugin touches *)
(* ===================================================================== *)

Module DOM.

(** Element objects live in a heap and are named by their address, so
    that the plugin's [styleElement] field and the child list of
    [document.head] refer to one and the same object. *)
Abbreviation node := nat (only parsing).

(** [classList] is a token set; [style] holds the inline declarations
    (property name to value); [attributes] holds the other attributes. *)
Record Element : Type := mkElement {
  localName : string;
  attributes : gmap string string;
  classList : gset string;
  style : gmap string string;
  textContent : string
}.

(** [el.getAttribute(name)]; [None] is [null]. *)
Definition getAttribute (name : string) (el : Element) : option string :=
  attributes el !! name.

(** [el.id = value] *)
Definition set_id (value : string) (el : Element) : Element :=
  {| localName := localName el;
     attributes := <["id" := value]> (attributes el);
     classList := classList el;
     style := style el;
     textContent := textContent el |}.

(** [el.classList.toggle(token, force)]: with [force] the token is
    added when [force] is true and removed when it is false. *)
Definition classList_toggle (token : string) (force : bool)
    (el : Element) : Element :=
  {| localName := localName el;
     attributes := attributes el;
     classList := if force then classList el ∪ {[ token ]}
                  else classList el ∖ {[ token ]};
     style := style el;
     textContent := textContent el |}.

(** [el.classList.remove(token)] *)
Definition classList_remove (token : string) (el : Element) : Element :=
  {| localName := localName el;
     attributes := attributes el;
     classList := classList el ∖ {[ token ]};
     style := style el;
     textContent := textContent el |}.

(** [el.style.setProperty(name, value)] for a custom property.  The
    empty value removes the declaration.  Any other value goes through
    the CSS engine of the document, [parse]: a value that does not parse
    as a declaration value is ignored and the declaration stays as it
    was; otherwise the declaration is set to the text the engine keeps
    (the value without the white space around it). *)
Definition style_setProperty (parse : string → option string)
    (name value : string) (el : Element) : Element :=
  {| localName := localName el;
     attributes := attributes el;
     classList := classList el;
     style := if decide (value = "") then delete name (style el)
              else match parse value with
                   | Some kept => <[name := kept]> (style el)
                   | None => style el
                   end;
     textContent := textContent el |}.

(** [el.textContent = text] *)
Definition set_textContent (text : string) (el : Element) : Element :=
  {| localName := localName el;
     attributes := attributes el;
     classList := classList el;
     style := style el;
     textContent := text |}.

(** The document: the heap of element objects, the three structural
    elements, the elements inside [<head>] and the elements inside
    [<body>], both in tree order.  The plugin changes the tree only by
    appending its style element to [<head>] and removing it again.

    [parseCustomValue] is the CSS engine the document comes with, as far
    as [setProperty] on a custom property consults it: [None] for a
    value that is not a valid declaration value, otherwise the text that
    is stored for it.  It is the host's; the plugin neither defines nor
    changes it, and nothing is assumed about it. *)
Record Document : Type := mkDocument {
  heap : gmap nat Element;
  documentElement : node;
  head : node;
  body : node;
  head_children : list nat;
  body_descendants : list nat;
  parseCustomValue : string → option string
}.

(** The elements connected to the document, in tree order. *)
Definition tree_order (d : Document) : list nat :=
  documentElement d :: head d :: head_children d ++
  body d :: body_descendants d.

(** Every connected element is a live object. *)
Definition well_formed (d : Document) : Prop :=
  Forall (λ n, is_Some (heap d !! n)) (tree_order d).

(** Run a mutation on the object at address [n]. *)
Definition update (n : node) (f : Element → Element)
    (d : Document) : Document :=
  {| heap := alter f n (heap d);
     documentElement := documentElement d;
     head := head d;
     body := body d;
     head_children := head_children d;
     body_descendants := body_descendants d;
     parseCustomValue := parseCustomValue d |}.

(** [document.createElement(tag)]: a new object, not yet connected. *)
Definition createElement (tag : string) (d : Document) : nat * Document :=
  let n := fresh (dom (heap d)) in
  (n, {| heap := <[n := mkElement tag ∅ ∅ ∅ ""]> (heap d);
         documentElement := documentElement d;
         head := head d;
         body := body d;
         head_children := head_children d;
         body_descendants := body_descendants d;
         parseCustomValue := parseCustomValue d |}).

(** [n.remove()] for an element without element children. *)
Definition remove (n : node) (d : Document) : Document :=
  {| heap := heap d;
     documentElement := documentElement d;
     head := head d;
     body := body d;
     head_children := filter (λ m, m ≠ n) (head_children d);
     body_descendants := filter (λ m, m ≠ n) (body_descendants d);
     parseCustomValue := parseCustomValue d |}.

(** [document.head.appendChild(n)]: [n] becomes the last child of
    [<head>], leaving any place it had before. *)
Definition head_appendChild (n : node) (d : Document) : Document :=
  let d := remove n d in
  {| heap := heap d;
     documentElement := documentElement d;
     head := head d;
     body := body d;
     head_children := head_children d ++ [n];
     body_descendants := body_descendants d;
     parseCustomValue := parseCustomValue d |}.

(** [document.querySelectorAll('[name]')]: the connected elements that
    carry the attribute, in tree order. *)
Definition querySelectorAll_attr (name : string) (d : Document)
    : list nat :=
  filter (λ n, is_Some (heap d !! n ≫= getAttribute name)) (tree_order d).

(** Observations used in the statements. *)
Definition classes_of (d : Document) (n : node) : gset string :=
  default ∅ (classList <$> heap d !! n).

Definition style_of (d : Document) (n : node) : gmap string string :=
  default ∅ (style <$> heap d !! n).

Definition text_of (d : Document) (n : node) : string :=
  default "" (textContent <$> heap d !! n).

Definition attribute_of (d : Document) (n : node) (name : string)
    : option string :=
  heap d !! n ≫= getAttribute name.

End DOM.

Import DOM.

(* ===================================================================== *)
(** ** The host workspace *)
(* ===================================================================== *)

Record TFile : Type := mkTFile { path : string }.

(** A leaf's view: a [MarkdownView] with its [file] field ([None] is
    [null]), or a view of some other class. *)
Inductive View : Type :=
  | MarkdownView (file : option TFile)
  | OtherView.

Record WorkspaceLeaf : Type := mkLeaf {
  viewType : string;
  view : View
}.

(** [workspace.getLeavesOfType(t)] *)
Definition getLeavesOfType (t : string) (leaves : list WorkspaceLeaf)
    : list WorkspaceLeaf :=
  filter (λ leaf, viewType leaf = t) leaves.

(* ===================================================================== *)
(** ** The plugin (lines 77-179) *)
(* ===================================================================== *)

(** The fields of the plugin object; [styleElement] is [None] until
    [onload] assigns it.  [settings] is assigned by [loadSettings] on
    line 83, the first thing [onload] does, before the settings tab and
    the event handlers exist that call the other methods: the record
    describes the plugin from that assignment on. *)
Record RainbowTreePlugin : Type := mkPlugin {
  styleElement : option nat;
  focusedPaths : gset string;
  settings : NFLSettings
}.

(** Everything a method can read or write: the plugin object, the
    document and the leaves of the workspace. *)
Record World : Type := mkWorld {
  this : RainbowTreePlugin;
  document : Document;
  leaves : list WorkspaceLeaf
}.

Definition set_document (d : Document) (w : World) : World :=
  {| this := this w; document := d; leaves := leaves w |}.

Definition set_focusedPaths (fp : gset string) (w : World) : World :=
  {| this := {| styleElement := styleElement (this w);
                focusedPaths := fp;
                settings := settings (this w) |};
     document := document w;
     leaves := leaves w |}.

Definition set_styleElement (n : nat) (w : World) : World :=
  {| this := {| styleElement := Some n;
                focusedPaths := focusedPaths (this w);
                settings := settings (this w) |};
     document := document w;
     leaves := leaves w |}.

Definition set_settings (s : NFLSettings) (w : World) : World :=
  {| this := {| styleElement := styleElement (this w);
                focusedPaths := focusedPaths (this w);
                settings := s |};
     document := document w;
     leaves := leaves w |}.

(** How a method that may raise ends.  The world it leaves behind is
    returned next to the completion, also when it raised. *)
Inductive exn : Type := TypeError.

Inductive completion : Type :=
  | Normal
  | Throw (e : exn).

Definition andThen (m : World → completion * World)
    (k : World → completion * World) (w : World) : completion * World :=
  match m w with
  | (Normal, w') => k w'
  | (Throw e, w') => (Throw e, w')
  end.

Notation "m ;> k" := (andThen m k) (at level 65, right associativity).

Definition total (f : World → World) (w : World) : completion * World :=
  (Normal, f w).

Definition focus_class : string := "plugin-nested-folder-lines-focus".
Definition unfocused_property : string := "--nfl-unfocused-color".

Definition LF : string := String "010"%char "".

(** [a || ''] on a [string | null]: [null] and the empty string are
    falsy. *)
Definition or_empty (a : option string) : string :=
  match a with
  | Some s => if decide (s = "") then "" else s
  | None => ""
  end.

(** The callback of line 177, run on one element. *)
Definition markFocused (focusedPaths : gset string)
    (el : Element) : Element :=
  classList_toggle "focused"
    (bool_decide (or_empty (getAttribute "data-path" el) ∈ focusedPaths)) el.

(** Lines 170-179. *)
Definition updateFocusStyles (w : World) : World :=
  let d := document w in
  let d := update (body d)
             (classList_toggle focus_class (enableFocus (settings (this w))))
             d in
  let elements := querySelectorAll_attr "data-path" d in
  let d := foldl (λ d el, update el (markFocused (focusedPaths (this w))) d)
             d elements in
  set_document d w.

(** The body of the loop over the leaves (lines 129-142). *)
Definition visitLeaf (focusedPaths : gset string) (leaf : WorkspaceLeaf)
    : gset string :=
  let file := match view leaf with
              | MarkdownView file => file
              | OtherView => None
              end in
  match file with
  | Some file => addFile focusedPaths (path file)
  | None => focusedPaths
  end.

(** Lines 124-146. *)
Definition updateFocusedPaths (w : World) : World :=
  let w := set_focusedPaths ∅ w in
  let openLeaves := getLeavesOfType "markdown" (leaves w) in
  let w := set_focusedPaths
             (foldl visitLeaf (focusedPaths (this w)) openLeaves) w in
  updateFocusStyles w.

Definition maxLevels : nat := 10.

(** One turn of the loop of lines 155-165: the text appended to
    [baseStyles]. *)
Definition baseStylesStep (s : NFLSettings) (baseStyles : string) (i : nat)
    : string :=
  let colorIndex := JS.rem i (length (colors s)) in
  let nestedSelectors := JS.repeat ".nav-folder-children " i in
  let color := JS.index (colors s) colorIndex in
  baseStyles +:+
    (LF +:+ "                " +:+ nestedSelectors +:+
     ".nav-folder-children::before {" +:+
     LF +:+ "                    border-left: 1px " +:+
     LineStyle_to_string (lineStyle s) +:+ " " +:+ JS.to_string color +:+
     ";" +:+
     LF +:+ "                }" +:+
     LF +:+ "            ").

(** Lines 148-168. *)
Definition updateBaseStyles (w : World) : completion * World :=
  let baseStyles := "" in
  let d := document w in
  let d := update (body d)
             (style_setProperty (parseCustomValue d) unfocused_property
                (unfocusedColor (settings (this w)))) d in
  let w := set_document d w in
  let baseStyles :=
    foldl (baseStylesStep (settings (this w))) baseStyles (seq 0 maxLevels) in
  match styleElement (this w) with
  | None => (Throw TypeError, w)
  | Some n =>
      (Normal, set_document (update n (set_textContent baseStyles) (document w)) w)
  end.

(** Lines 109-112. *)
Definition onunload (w : World) : completion * World :=
  match styleElement (this w) with
  | None => (Throw TypeError, w)
  | Some n =>
      let d := remove n (document w) in
      let d := update (body d) (classList_remove focus_class) d in
      (Normal, set_document d w)
  end.

(** What [loadData()] resolves to: the stored fields, each present or
    not. *)
Record StoredData : Type := mkStored {
  stored_colors : option (list string);
  stored_unfocusedColor : option string;
  stored_enableFocus : option bool;
  stored_lineStyle : option LineStyle
}.

(** Lines 114-116: [Object.assign({}, DEFAULT_SETTINGS, data)]; a [null]
    source is skipped.  This is [loadSettings] as [onload] calls it, with
    the defaults as lines 10-15 write them.  (The copy is shallow: when
    no palette is stored, [settings.colors] is the array of
    [DEFAULT_SETTINGS] itself, so that a color picker writes into the
    defaults too; nothing reads them again before the plugin is
    unloaded.) *)
Definition loadSettings (data : option StoredData) (w : World) : World :=
  set_settings
    match data with
    | None => DEFAULT_SETTINGS
    | Some st =>
        {| colors := default (colors DEFAULT_SETTINGS) (stored_colors st);
           unfocusedColor := default (unfocusedColor DEFAULT_SETTINGS)
                               (stored_unfocusedColor st);
           enableFocus := default (enableFocus DEFAULT_SETTINGS)
                            (stored_enableFocus st);
           lineStyle := default (lineStyle DEFAULT_SETTINGS)
                          (stored_lineStyle st) |}
    end w.

(** Lines 118-122; persisting the settings is the host's business. *)
Definition saveSettings : World → completion * World :=
  updateBaseStyles ;> total updateFocusedPaths.

(** Lines 82-107.  The settings tab and the registration of the two event
    handlers leave the world as it is; the handlers are [on_file_open]
    and [on_layout_change] below. *)
Definition onload (data : option StoredData) : World → completion * World :=
  total (loadSettings data) ;>
  total (λ w,
    let '(n, d) := createElement "style" (document w) in
    let w := set_styleElement n (set_document d w) in
    let d := update n (set_id "nested-folder-lines-styles") (document w) in
    let d := head_appendChild n d in
    set_document d w) ;>
  updateBaseStyles ;>
  total updateFocusedPaths.

(** Lines 93-97. *)
Definition on_file_open (file : option TFile) (w : World) : World :=
  match file with
  | Some _ => updateFocusedPaths w
  | None => w
  end.

(** Lines 101-103. *)
Definition on_layout_change (w : World) : World :=
  updateFocusedPaths w.

(** The host opens or closes leaves. *)
Definition with_leaves (ls : list WorkspaceLeaf) (w : World) : World :=
  {| this := this w; document := document w; leaves := ls |}.

(** What can happen between [onload] and [onunload]: the two workspace
    events the plugin registered for, a callback of the settings tab
    (lines 36-38, 50-52, 60-62, 70-72: the settings object is changed,
    then [saveSettings] runs), and the host changing the open leaves. *)
Inductive Event : Type :=
  | FileOpen (file : option TFile)
  | LayoutChange
  | SettingsChanged (s : NFLSettings)
  | LeavesChanged (ls : list WorkspaceLeaf).

Definition handle (e : Event) : World → completion * World :=
  match e with
  | FileOpen file => total (on_file_open file)
  | LayoutChange => total on_layout_change
  | SettingsChanged s => total (set_settings s) ;> saveSettings
  | LeavesChanged ls => total (with_leaves ls)
  end.

Fixpoint run (es : list Event) : World → completion * World :=
  match es with
  | [] => total id
  | e :: es => handle e ;> run es
  end.

(** Lines 86-88 on their own: the style element is created, named and
    appended to the head. *)
Definition attachStyle (w : World) : World :=
  let '(n, d) := createElement "style" (document w) in
  let w := set_styleElement n (set_document d w) in
  let d := update n (set_id "nested-folder-lines-styles") (document w) in
  let d := head_appendChild n d in
  set_document d w.

(** The plugin is loaded: its style element exists as an object. *)
Definition loaded (w : World) : Prop :=
  ∃ n, styleElement (this w) = Some n ∧ is_Some (heap (document w) !! n).


(* ===================================================================== *)
(** ** The callbacks of the settings tab (lines 25-74) *)
(* ===================================================================== *)

(** The names of the five color pickers (line 29); picker [i] edits
    [colors[i]]. *)
Definition colorNames : list string :=
  ["First level"; "Second level"; "Third level"; "Fourth level";
   "Fifth level"].

(** [a[i] = v] on a [string[]]: inside the array the element is
    replaced, at its end the array grows by one.  Further out JavaScript
    pads with holes, which a list of strings cannot hold: [None]. *)
Definition array_assign (a : list string) (i : nat) (v : string)
    : option (list string) :=
  if decide (i < length a) then Some (<[i := v]> a)
  else if decide (i = length a) then Some (a ++ [v])
  else None.

(** Lines 36-39: the [onChange] of color picker [i]. *)
Definition color_onChange (i : nat) (value : string) (w : World)
    : option (completion * World) :=
  let s := settings (this w) in
  match array_assign (colors s) i value with
  | Some a =>
      Some (saveSettings
              (set_settings
                 {| colors := a;
                    unfocusedColor := unfocusedColor s;
                    enableFocus := enableFocus s;
                    lineStyle := lineStyle s |} w))
  | None => None
  end.

(** Lines 50-53. *)
Definition lineStyle_onChange (value : LineStyle) (w : World)
    : completion * World :=
  let s := settings (this w) in
  saveSettings
    (set_settings
       {| colors := colors s;
          unfocusedColor := unfocusedColor s;
          enableFocus := enableFocus s;
          lineStyle := value |} w).

(** Lines 60-63. *)
Definition unfocusedColor_onChange (value : string) (w : World)
    : completion * World :=
  let s := settings (this w) in
  saveSettings
    (set_settings
       {| colors := colors s;
          unfocusedColor := value;
          enableFocus := enableFocus s;
          lineStyle := lineStyle s |} w).

(** Lines 70-73. *)
Definition enableFocus_onChange (value : bool) (w : World)
    : completion * World :=
  let s := settings (this w) in
  saveSettings
    (set_settings
       {| colors := colors s;
          unfocusedColor := unfocusedColor s;
          enableFocus := value;
          lineStyle := lineStyle s |} w).

(* ===================================================================== *)
(** ** What the specification says, in its own words *)
(* ===================================================================== *)

(** The identifiers of the open items: the paths of the files shown in
    the markdown leaves of the workspace, in leaf order. *)
Definition openIdentifier (leaf : WorkspaceLeaf) : option string :=
  if decide (viewType leaf = "markdown") then
    match view leaf with
    | MarkdownView (Some file) => Some (path file)
    | _ => None
    end
  else None.

Definition openIdentifiers (leaves : list WorkspaceLeaf) : list string :=
  omap openIdentifier leaves.

(** The segments of an identifier. *)
Definition segments (id : string) : list string := JS.split slash id.

(** [x] is a proper ancestor prefix of [id]: the first [k] segments of
    [id] joined by the separator, for some [k] from 1 up to but excluding
    the number of segments. *)
Definition proper_ancestor (x id : string) : Prop :=
  ∃ k, 0 < k < length (segments id) ∧ x = JS.join "/" (take k (segments id)).

(** The proper ancestor prefixes of [id], shortest first. *)
Definition ancestor_prefixes (id : string) : list string :=
  map (λ k, JS.join "/" (take k (segments id)))
      (seq 1 (length (segments id) - 1)).

(** The union, over all open identifiers, of the identifier and its
    proper ancestor prefixes. *)
Definition resolve (ids : list string) : gset string :=
  ⋃ map (λ id, {[ id ]} ∪ list_to_set (ancestor_prefixes id)) ids.

(** The characters of a string. *)
Definition chars (s : string) : list ascii := String.list_ascii_of_string s.

(** The selector of depth [i]: the child-container fragment repeated [i]
    times in front of the base child-container selector. *)
Definition child_fragment : string := ".nav-folder-children ".
Definition base_selector : string := ".nav-folder-children::before".

Definition depth_selector (i : nat) : string :=
  JS.repeat child_fragment i +:+ base_selector.

(** The same selector written out level by level, without [repeat]: the
    base selector at depth 0, and one more fragment in front for each
    further level. *)
Fixpoint nested_selector (i : nat) : string :=
  match i with
  | 0 => ".nav-folder-children::before"
  | S i' => ".nav-folder-children " +:+ nested_selector i'
  end.

(** One rule: a selector and its border declaration. *)
Definition depth_rule (selector line color : string) : string :=
  LF +:+ "                " +:+ selector +:+ " {" +:+
  LF +:+ "                    border-left: 1px " +:+ line +:+ " " +:+
  color +:+ ";" +:+
  LF +:+ "                }" +:+
  LF +:+ "            ".

(** The concatenation of the rules of depths [0 .. n-1], the color of
    each depth given by [color_at]. *)
Definition rules (line : string) (color_at : nat → string) (n : nat)
    : string :=
  String.concat "" (map (λ i, depth_rule (depth_selector i) line (color_at i))
                        (seq 0 n)).

(** The color text of depth [i] as the code computes it. *)
Definition color_text (s : NFLSettings) (i : nat) : string :=
  JS.to_string (JS.index (colors s) (JS.rem i (length (colors s)))).

(** What focus marking leaves at address [k] in place of [el]: the body
    gets its focus-mode class set or cleared, and a connected element
    with a [data-path] attribute gets its [focused] class set or cleared
    by the membership of that path alone. *)
Definition focusMark (w : World) (k : nat) (el : Element) : Element :=
  let el := if decide (k = body (document w))
            then classList_toggle focus_class
                   (enableFocus (settings (this w))) el
            else el in
  if decide (k ∈ tree_order (document w) ∧
             is_Some (getAttribute "data-path" el))
  then markFocused (focusedPaths (this w)) el
  else el.

(** [x] starts [id] and is followed there by a separator. *)
Definition continued_by_slash (x id : string) : Prop :=
  ∃ rest, id = x +:+ "/" +:+ rest.

(** [el'] is [el] up to what the plugin writes: the two class tokens and
    the custom property of the inline style. *)
Definition same_but_marks (el el' : Element) : Prop :=
  localName el' = localName el ∧
  attributes el' = attributes el ∧
  textContent el' = textContent el ∧
  (∀ c, c ≠ focus_class → c ≠ "focused" →
        (c ∈ classList el' ↔ c ∈ classList el)) ∧
  (∀ p, p ≠ unfocused_property → style el' !! p = style el !! p).

(** The plugin is loaded with style element [n], which is a child of the
    head. *)
Definition attached (n : nat) (w : World) : Prop :=
  styleElement (this w) = Some n ∧
  is_Some (heap (document w) !! n) ∧
  n ∈ head_children (document w).

(** The inline custom property after [setProperty] was given [value],
    from the property [old] that was there: none for the empty value,
    the old one when the engine does not take the value, and otherwise
    what the engine keeps of it. *)
Definition property_after (parse : string → option string)
    (value : string) (old : option string) : option string :=
  if decide (value = "") then None
  else match parse value with
       | Some kept => Some kept
       | None => old
       end.

(** The custom property of the body is what the last [setProperty] with
    [value] made of it, as far as that is settled by [value] alone: none
    for the empty value, and what the engine keeps for a value it
    takes. *)
Definition property_settled (d : Document) (value : string) : Prop :=
  (value = "" → style_of d (body d) !! unfocused_property = None) ∧
  (∀ kept, value ≠ "" → parseCustomValue d value = Some kept →
           style_of d (body d) !! unfocused_property = Some kept).

(** What the plugin shows agrees with its settings: the style element is
    attached and holds the rules of the current settings, and the body
    carries the focus-mode class they ask for and, for an unfocused
    color that is empty or that the engine takes, the custom property
    they ask for. *)
Definition in_sync (w : World) : Prop :=
  let s := settings (this w) in
  let d := document w in
  is_Some (heap d !! body d) ∧
  property_settled d (unfocusedColor s) ∧
  (focus_class ∈ classes_of d (body d) ↔ enableFocus s = true) ∧
  ∃ n, attached n w ∧
       text_of d n =
         rules (LineStyle_to_string (lineStyle s)) (color_text s) maxLevels.

(** [d] is [d0] up to the head's children and to what the plugin writes
    into the elements [d0] had. *)
Definition framed (d0 d : Document) : Prop :=
  documentElement d = documentElement d0 ∧ head d = head d0 ∧
  body d = body d0 ∧ body_descendants d = body_descendants d0 ∧
  ∀ k el, heap d0 !! k = Some el →
          ∃ el', heap d !! k = Some el' ∧ same_but_marks el el'.

(** [w] is a state of the session that [onload] started in [w0] with
    the new style element [n]. *)
Definition in_session (w0 w : World) (n : nat) : Prop :=
  attached n w ∧
  heap (document w0) !! n = None ∧
  framed (document w0) (document w) ∧
  head_children (document w) = head_children (document w0) ++ [n].

(* ===================================================================== *)
(** ** Concrete worlds used in the examples *)
(* ===================================================================== *)

Definition plain (tag : string) : Element := mkElement tag ∅ ∅ ∅ "".

(** The CSS engine of the example documents, as far as the examples use
    it: the white space around a value is dropped, and what remains, if
    made of letters, digits and [#] only, is a valid declaration value
    and is kept as written.  The examples set no other value; this
    stand-in ignores them. *)
Definition is_css_space (c : ascii) : bool :=
  let n := nat_of_ascii c in
  (n =? 9) || (n =? 10) || (n =? 12) || (n =? 13) || (n =? 32).

Definition is_plain_char (c : ascii) : bool :=
  let n := nat_of_ascii c in
  ((48 <=? n) && (n <=? 57)) || ((65 <=? n) && (n <=? 90)) ||
  ((97 <=? n) && (n <=? 122)) || (n =? 35).

Fixpoint trim_start (value : string) : string :=
  match value with
  | String c rest => if is_css_space c then trim_start rest else value
  | EmptyString => EmptyString
  end.

Definition trim (value : string) : string :=
  String.rev (trim_start (String.rev (trim_start value))).

Definition example_engine (value : string) : option string :=
  let kept := trim value in
  if forallb is_plain_char (String.list_ascii_of_string kept)
  then Some kept else None.

Definition tracked (p : string) (cls : gset string) : Element :=
  mkElement "div" {[ "data-path" := p ]} cls ∅ "".

(** A file explorer showing the folder [A], the file [A/x.md] and the
    file [B.md] (marked focused from earlier), before the plugin is
    loaded. *)
Definition document0 : Document :=
  {| heap := list_to_map
       [(0, plain "html"); (1, plain "head"); (2, plain "body");
        (3, tracked "A" ∅); (4, tracked "A/x.md" ∅);
        (5, tracked "B.md" {[ "focused" ]})];
     documentElement := 0; head := 1; body := 2;
     head_children := []; body_descendants := [3; 4; 5];
     parseCustomValue := example_engine |}.

Definition leaf_of (p : string) : WorkspaceLeaf :=
  mkLeaf "markdown" (MarkdownView (Some (mkTFile p))).

Definition world0 : World :=
  {| this := mkPlugin None ∅ DEFAULT_SETTINGS;
     document := document0;
     leaves := [leaf_of "A/x.md"] |}.

(** The same world once [onload] has run with no stored data. *)
Definition world1 : World := (onload None world0).2.

(** The world in the middle of [onload]: the style element (address 6) is
    created and attached, and no method has run yet. *)
Definition world_attached : World :=
  {| this := mkPlugin (Some 6) ∅ DEFAULT_SETTINGS;
     document :=
       {| heap := <[6 := mkElement "style"
                          {[ "id" := "nested-folder-lines-styles" ]} ∅ ∅ ""]>
                    (heap document0);
          documentElement := 0; head := 1; body := 2;
          head_children := [6]; body_descendants := [3; 4; 5];
          parseCustomValue := example_engine |};
     leaves := [leaf_of "A/x.md"] |}.

Definition two_colors : NFLSettings :=
  {| colors := ["#111"; "#222"]; unfocusedColor := "#999999";
     enableFocus := true; lineStyle := solid |}.

Definition no_colors : NFLSettings :=
  {| colors := []; unfocusedColor := "#999999";
     enableFocus := false; lineStyle := dashed |}.

(** Closes a decidable goal about concrete data by evaluating its
    decision procedure. *)
Ltac by_evaluation := apply (bool_decide_unpack _); vm_compute; exact I.

(* ===================================================================== *)
(** ** Strings: append, split and join *)
(* ===================================================================== *)

Section strings.

Implicit Types (s t u glue : string) (c sep : ascii) (l : list string).

Lemma append_nil_l s : "" +:+ s = s.
Proof. reflexivity. Qed.

Lemma append_cons c s t : String c s +:+ t = String c (s +:+ t).
Proof. reflexivity. Qed.

Lemma append_nil_r s : s +:+ "" = s.
Proof.
  induction s as [|c s IH]; [done|]. by rewrite append_cons, IH.
Qed.

Lemma append_assoc s t u : (s +:+ t) +:+ u = s +:+ t +:+ u.
Proof.
  induction s as [|c s IH]; [done|]. by rewrite !append_cons, IH.
Qed.

Lemma split_not_nil sep s : JS.split sep s ≠ [].
Proof.
  destruct s as [|c s]; simpl; [done|].
  case_decide; [done|]. by destruct (JS.split sep s).
Qed.

Lemma split_length_pos sep s : 0 < length (JS.split sep s).
Proof.
  pose proof (split_not_nil sep s). destruct (JS.split sep s); simpl; [done|lia].
Qed.

Lemma join_cons glue s l :
  l ≠ [] → JS.join glue (s :: l) = s +:+ glue +:+ JS.join glue l.
Proof. by destruct l. Qed.

Lemma join_app glue l1 l2 :
  l1 ≠ [] → l2 ≠ [] →
  JS.join glue (l1 ++ l2) = JS.join glue l1 +:+ glue +:+ JS.join glue l2.
Proof.
  intros H1 H2. induction l1 as [|s l1 IH]; [done|].
  destruct l1 as [|s' l1].
  - simpl app. by rewrite join_cons.
  - change ((s :: s' :: l1) ++ l2) with (s :: ((s' :: l1) ++ l2)).
    rewrite !join_cons by done. rewrite IH by done.
    by rewrite !append_assoc.
Qed.

(** Joining what [split] returns gives the string back. *)
Lemma join_split sep s : JS.join (String sep "") (JS.split sep s) = s.
Proof.
  induction s as [|c s IH]; simpl; [done|].
  pose proof (split_not_nil sep s) as Hne.
  case_decide as Hc.
  - subst c. rewrite join_cons by done.
    by rewrite append_nil_l, append_cons, append_nil_l, IH.
  - destruct (JS.split sep s) as [|seg segs]; [done|].
    destruct segs as [|seg' segs].
    + simpl in *. by rewrite IH.
    + rewrite join_cons in IH by done. rewrite join_cons by done.
      by rewrite append_cons, IH.
Qed.

(** No piece contains the separator. *)
Lemma split_no_sep sep s :
  Forall (λ seg, sep ∉ chars seg) (JS.split sep s).
Proof.
  induction s as [|c s IH]; simpl.
  - repeat constructor. cbn. apply not_elem_of_nil.
  - case_decide as Hc.
    + constructor; [|done]. cbn. apply not_elem_of_nil.
    + destruct (JS.split sep s) as [|seg segs].
      * repeat constructor. cbn. rewrite elem_of_cons, elem_of_nil. naive_solver.
      * inversion IH as [|? ? Hseg Hsegs]; subst. constructor; [|done].
        unfold chars in *. cbn. rewrite elem_of_cons. naive_solver.
Qed.

(** Splitting distributes over a separator between two strings. *)
Lemma split_app sep s t :
  JS.split sep (s +:+ String sep t) = JS.split sep s ++ JS.split sep t.
Proof.
  induction s as [|c s IH].
  - rewrite append_nil_l. simpl. by rewrite decide_True.
  - rewrite append_cons. simpl. case_decide; rewrite IH; [done|].
    pose proof (split_not_nil sep s). by destruct (JS.split sep s).
Qed.

(** A string without the separator is its own single piece. *)
Lemma split_no_sep_id sep s : sep ∉ chars s → JS.split sep s = [s].
Proof.
  induction s as [|c s IH]; simpl; [done|].
  unfold chars in *. cbn. rewrite elem_of_cons. intros Hn.
  rewrite decide_False by naive_solver. rewrite IH by naive_solver. done.
Qed.

(** The first [S n] pieces joined, from the first [n] joined: the step
    the resolver's inner loop takes. *)
Lemma join_take_S l n seg :
  l !! n = Some seg →
  JS.join "/" (take (S n) l) =
  JS.join "/" (take n l) +:+ (if 0 <? n then "/" else "") +:+ seg.
Proof.
  intros Hn. rewrite (take_S_r _ _ _ Hn).
  destruct n as [|n].
  - by rewrite take_0.
  - assert (take (S n) l ≠ []) as Hne.
    { destruct l; [done|]. done. }
    rewrite join_app by done. done.
Qed.

End strings.

(* ===================================================================== *)
(** ** The focus-set resolver *)
(* ===================================================================== *)

Section resolver.

Implicit Types (fp : gset string) (id x : string) (ids : list string).
Implicit Types (ls : list WorkspaceLeaf) (w : World).

(** The invariant of the inner loop after [n] turns: [currentPath] is the
    first [n] segments joined, and the prefixes of 1 to [n] segments have
    been added. *)
Lemma ancestor_loop (segs : list string) fp n :
  n ≤ length segs →
  foldl (ancestorStep segs) ("", fp) (seq 0 n) =
  (JS.join "/" (take n segs),
   fp ∪ list_to_set (map (λ k, JS.join "/" (take k segs)) (seq 1 n))).
Proof.
  induction n as [|n IH]; intros Hn.
  - simpl. f_equal. set_solver.
  - rewrite !seq_S, foldl_app, IH by lia. simpl foldl.
    destruct (lookup_lt_is_Some_2 segs n) as [seg Hseg]; [lia|].
    unfold ancestorStep. simpl. rewrite Hseg. simpl.
    rewrite <- (join_take_S _ _ _ Hseg).
    rewrite map_app, list_to_set_app_L. simpl. f_equal. set_solver.
Qed.

Lemma addFile_spec fp id :
  addFile fp id = fp ∪ ({[ id ]} ∪ list_to_set (ancestor_prefixes id)).
Proof.
  unfold addFile, ancestor_prefixes, segments.
  rewrite ancestor_loop by lia. simpl. set_solver.
Qed.

Lemma visitLeaf_spec fp (leaf : WorkspaceLeaf) :
  viewType leaf = "markdown" →
  visitLeaf fp leaf = fp ∪ resolve (option_list (openIdentifier leaf)).
Proof.
  intros Ht. unfold visitLeaf, openIdentifier. rewrite decide_True by done.
  destruct (view leaf) as [[file|]|]; simpl.
  - rewrite addFile_spec. unfold resolve. simpl. set_solver.
  - unfold resolve. simpl. set_solver.
  - unfold resolve. simpl. set_solver.
Qed.

Lemma resolve_app ids1 ids2 :
  resolve (ids1 ++ ids2) = resolve ids1 ∪ resolve ids2.
Proof.
  unfold resolve. rewrite map_app. apply leibniz_equiv, union_list_app.
Qed.

(** The loop over the leaves adds exactly the closure of the open
    identifiers to the set it starts from. *)
Lemma visit_leaves fp ls :
  foldl visitLeaf fp (getLeavesOfType "markdown" ls) =
  fp ∪ resolve (openIdentifiers ls).
Proof.
  revert fp. induction ls as [|leaf ls IH]; intros fp.
  - unfold resolve. simpl. set_solver.
  - unfold getLeavesOfType, openIdentifiers in *. rewrite filter_cons.
    replace (omap openIdentifier (leaf :: ls))
      with (option_list (openIdentifier leaf) ++ omap openIdentifier ls)
      by (simpl; by destruct (openIdentifier leaf)).
    rewrite resolve_app. case_decide as Ht.
    + simpl foldl. rewrite IH, visitLeaf_spec by done. set_solver.
    + rewrite IH.
      replace (openIdentifier leaf) with (@None string)
        by (unfold openIdentifier; by rewrite decide_False).
      unfold resolve at 2. simpl. set_solver.
Qed.

Lemma updateFocusStyles_this w : this (updateFocusStyles w) = this w.
Proof. reflexivity. Qed.

Lemma updateFocusStyles_leaves w : leaves (updateFocusStyles w) = leaves w.
Proof. reflexivity. Qed.

(** The set after a resolution, whatever it was before. *)
Lemma updateFocusedPaths_resolve w :
  focusedPaths (this (updateFocusedPaths w)) =
  resolve (openIdentifiers (leaves w)).
Proof.
  unfold updateFocusedPaths. rewrite updateFocusStyles_this. simpl.
  rewrite visit_leaves. set_solver.
Qed.

Lemma elem_of_ancestor_prefixes x id :
  x ∈ ancestor_prefixes id ↔ proper_ancestor x id.
Proof.
  unfold ancestor_prefixes, proper_ancestor. rewrite list_elem_of_fmap.
  split.
  - intros (k & -> & Hk%elem_of_seq). exists k. split; [lia|done].
  - intros (k & Hk & ->). exists k. split; [done|]. apply elem_of_seq. lia.
Qed.

Lemma elem_of_resolve x ids :
  x ∈ resolve ids ↔ ∃ id, id ∈ ids ∧ (x = id ∨ proper_ancestor x id).
Proof.
  unfold resolve. rewrite elem_of_union_list. split.
  - intros (X & HX & Hx). apply list_elem_of_fmap in HX as (id & -> & Hid).
    exists id. split; [done|].
    rewrite elem_of_union, elem_of_singleton, elem_of_list_to_set,
      elem_of_ancestor_prefixes in Hx. done.
  - intros (id & Hid & Hx). eexists. split.
    + apply list_elem_of_fmap. by exists id.
    + rewrite elem_of_union, elem_of_singleton, elem_of_list_to_set,
        elem_of_ancestor_prefixes. done.
Qed.

(** The proper ancestor prefixes of [id] are the strings that [id]
    continues with a separator: the segment-wise and the character-wise
    reading agree. *)
Lemma proper_ancestor_prefix x id :
  proper_ancestor x id ↔ ∃ rest, id = x +:+ "/" +:+ rest.
Proof.
  unfold proper_ancestor, segments. split.
  - intros (k & Hk & ->). exists (JS.join "/" (drop k (JS.split slash id))).
    rewrite <- join_app.
    + rewrite take_drop. symmetry. apply (join_split slash).
    + intros Hnil%(f_equal length). rewrite length_take in Hnil. simpl in Hnil. lia.
    + intros Hnil%(f_equal length). rewrite length_drop in Hnil. simpl in Hnil. lia.
  - intros (rest & ->). exists (length (JS.split slash x)).
    change (x +:+ "/" +:+ rest) with (x +:+ String slash rest).
    rewrite split_app, length_app.
    pose proof (split_length_pos slash x). pose proof (split_length_pos slash rest).
    split; [lia|]. rewrite take_app_length. symmetry. apply (join_split slash).
Qed.

End resolver.

(* ===================================================================== *)
(** ** Focus marking: [updateFocusStyles] *)
(* ===================================================================== *)

Section focus.

Implicit Types (w : World) (d : Document) (el : Element) (k n : nat).

Lemma classList_toggle_idemp token b el :
  classList_toggle token b (classList_toggle token b el) =
  classList_toggle token b el.
Proof.
  unfold classList_toggle. simpl. f_equal. destruct b; set_solver.
Qed.

Lemma getAttribute_classList_toggle name token b el :
  getAttribute name (classList_toggle token b el) = getAttribute name el.
Proof. reflexivity. Qed.

Lemma markFocused_idemp fp el :
  markFocused fp (markFocused fp el) = markFocused fp el.
Proof. unfold markFocused. simpl. apply classList_toggle_idemp. Qed.

(** A [forEach] of one mutation over a node list only touches the heap. *)
Lemma forEach_update (f : Element → Element) (l : list nat) d :
  foldl (λ d n, update n f d) d l =
  {| heap := foldl (λ h n, alter f n h) (heap d) l;
     documentElement := documentElement d;
     head := head d;
     body := body d;
     head_children := head_children d;
     body_descendants := body_descendants d;
     parseCustomValue := parseCustomValue d |}.
Proof.
  revert d. induction l as [|n l IH]; intros d; simpl.
  - by destruct d.
  - by rewrite IH.
Qed.

(** An idempotent mutation run over a node list, possibly with
    repetitions, is applied once to each listed object. *)
Lemma lookup_foldl_alter (f : Element → Element) (l : list nat)
    (h : gmap nat Element) k :
  (∀ el, f (f el) = f el) →
  foldl (λ h n, alter f n h) h l !! k =
  if decide (k ∈ l) then f <$> h !! k else h !! k.
Proof.
  intros Hf. revert h. induction l as [|n l IH]; intros h; simpl.
  - done.
  - rewrite IH, lookup_alter.
    destruct (decide (n = k)) as [->|Hne].
    + rewrite (decide_True (P := k ∈ k :: l)) by apply list_elem_of_here.
      case_decide; [|done]. destruct (h !! k); simpl; [|done]. by rewrite Hf.
    + destruct (decide (k ∈ l)) as [Hin|Hnin].
      * by rewrite decide_True by by apply list_elem_of_further.
      * rewrite decide_False; [done|]. rewrite elem_of_cons. naive_solver.
Qed.

(** The heap after focus marking, object by object. *)
Lemma updateFocusStyles_lookup w k :
  heap (document (updateFocusStyles w)) !! k =
  focusMark w k <$> heap (document w) !! k.
Proof.
  unfold updateFocusStyles. simpl. rewrite forEach_update. simpl.
  rewrite lookup_foldl_alter by apply markFocused_idemp.
  unfold querySelectorAll_attr. simpl.
  change (tree_order (update _ _ (document w))) with (tree_order (document w)).
  unfold focusMark.
  set (tg := classList_toggle focus_class (enableFocus (settings (this w)))).
  destruct (heap (document w) !! k) as [el|] eqn:Hk; simpl.
  - set (el1 := if decide (k = body (document w)) then tg el else el).
    assert (alter tg (body (document w)) (heap (document w)) !! k = Some el1)
      as Hk1.
    { rewrite lookup_alter. unfold el1.
      repeat case_decide; simplify_eq; by rewrite Hk. }
    rewrite Hk1. simpl.
    destruct (decide (k ∈ filter _ _)) as [Hin|Hnin];
      destruct (decide (_ ∧ _)) as [Ht|Hnt]; try done; exfalso.
    + apply Hnt. apply list_elem_of_filter in Hin. rewrite Hk1 in Hin.
      simpl in Hin. tauto.
    + apply Hnin. apply list_elem_of_filter. rewrite Hk1. simpl. tauto.
  - assert (alter tg (body (document w)) (heap (document w)) !! k = None)
      as Hk1.
    { rewrite lookup_alter. case_decide; simplify_eq; by rewrite Hk. }
    rewrite Hk1. by case_decide.
Qed.

Lemma updateFocusStyles_tree_order w :
  tree_order (document (updateFocusStyles w)) = tree_order (document w).
Proof.
  unfold updateFocusStyles. simpl. by rewrite forEach_update.
Qed.

Lemma updateFocusStyles_body w :
  body (document (updateFocusStyles w)) = body (document w).
Proof.
  unfold updateFocusStyles. simpl. by rewrite forEach_update.
Qed.

Lemma focusMark_attributes w k el :
  attributes (focusMark w k el) = attributes el.
Proof. unfold focusMark. by repeat case_decide. Qed.

Lemma focusMark_style w k el : style (focusMark w k el) = style el.
Proof. unfold focusMark. by repeat case_decide. Qed.

Lemma focusMark_textContent w k el :
  textContent (focusMark w k el) = textContent el.
Proof. unfold focusMark. by repeat case_decide. Qed.

(** The focus-mode class of the body after marking. *)
Lemma focusMark_focus_class w el :
  focus_class ∈ classList (focusMark w (body (document w)) el) ↔
  enableFocus (settings (this w)) = true.
Proof.
  unfold focusMark.
  rewrite (decide_True (P := body (document w) = body (document w))) by done.
  case_decide; simpl; destruct (enableFocus _); simpl;
    try case_bool_decide; set_solver.
Qed.

(** The [focused] class of a tracked element after marking. *)
Lemma focusMark_focused w k el p :
  k ∈ tree_order (document w) →
  getAttribute "data-path" el = Some p →
  "focused" ∈ classList (focusMark w k el) ↔ p ∈ focusedPaths (this w).
Proof.
  intros Hk Hp. unfold focusMark.
  assert (or_empty (Some p) = p) as Hor.
  { unfold or_empty. by case_decide. }
  rewrite decide_True.
  - unfold markFocused.
    case_decide; simpl; rewrite ?getAttribute_classList_toggle, Hp, Hor;
      case_bool_decide; try destruct (enableFocus _); set_solver.
  - split; [done|].
    case_decide; rewrite ?getAttribute_classList_toggle, Hp; done.
Qed.

Lemma Document_ext d1 d2 :
  heap d1 = heap d2 →
  documentElement d1 = documentElement d2 →
  head d1 = head d2 →
  body d1 = body d2 →
  head_children d1 = head_children d2 →
  body_descendants d1 = body_descendants d2 →
  parseCustomValue d1 = parseCustomValue d2 →
  d1 = d2.
Proof. destruct d1, d2; simpl; intros; by subst. Qed.

Lemma World_ext w1 w2 :
  this w1 = this w2 → document w1 = document w2 → leaves w1 = leaves w2 →
  w1 = w2.
Proof. destruct w1, w2; simpl; intros; by subst. Qed.

(** Marking only writes to the heap. *)
Lemma updateFocusStyles_frame w :
  let d := document w in
  let d' := document (updateFocusStyles w) in
  documentElement d' = documentElement d ∧ head d' = head d ∧
  body d' = body d ∧ head_children d' = head_children d ∧
  body_descendants d' = body_descendants d.
Proof.
  unfold updateFocusStyles. simpl. by rewrite forEach_update.
Qed.

(** Marking leaves the engine of the document alone. *)
Lemma updateFocusStyles_engine w :
  parseCustomValue (document (updateFocusStyles w)) =
  parseCustomValue (document w).
Proof.
  unfold updateFocusStyles. simpl. by rewrite forEach_update.
Qed.

Lemma getAttribute_markFocused name fp el :
  getAttribute name (markFocused fp el) = getAttribute name el.
Proof. reflexivity. Qed.

(** Marking an object that has just been marked changes nothing. *)
Lemma focusMark_twice w k el :
  focusMark (updateFocusStyles w) k (focusMark w k el) = focusMark w k el.
Proof.
  unfold focusMark.
  rewrite updateFocusStyles_tree_order, updateFocusStyles_body,
    updateFocusStyles_this.
  set (tg := classList_toggle focus_class (enableFocus (settings (this w)))).
  set (mf := markFocused (focusedPaths (this w))).
  assert (∀ e, tg (tg e) = tg e) as Htg
    by (intros; apply classList_toggle_idemp).
  assert (∀ e, mf (mf e) = mf e) as Hmf
    by (intros; apply markFocused_idemp).
  assert (∀ e, tg (mf (tg e)) = mf (tg e)) as Hcomm.
  { intros e. unfold tg, mf, markFocused, classList_toggle. simpl. f_equal.
    assert (focus_class ≠ "focused") by done.
    destruct (enableFocus _), (bool_decide _); set_solver. }
  destruct (decide (k = body (document w))) as [Hb|Hb];
    repeat change (getAttribute ?n (tg ?e)) with (getAttribute n e);
    destruct (decide (k ∈ tree_order (document w) ∧
                      is_Some (getAttribute "data-path" el))) as [HP|HP];
    repeat first
      [ change (getAttribute ?n (tg ?e)) with (getAttribute n e)
      | change (getAttribute ?n (mf ?e)) with (getAttribute n e) ];
    rewrite ?(decide_True (P := k ∈ tree_order (document w) ∧
                is_Some (getAttribute "data-path" el))) by done;
    rewrite ?(decide_False (P := k ∈ tree_order (document w) ∧
                is_Some (getAttribute "data-path" el))) by done;
    by rewrite ?Hcomm, ?Htg, ?Hmf.
Qed.

(** C4. After [updateFocusStyles], the focus-mode class is on the
    document body if and only if [enableFocus] is true, and every element
    of the document that carries a [data-path] attribute has the
    [focused] class if and only if its path is in the focused set. *)
Theorem updateFocusStyles_marks w :
  well_formed (document w) →
  let d' := document (updateFocusStyles w) in
  (focus_class ∈ classes_of d' (body d') ↔
   enableFocus (settings (this w)) = true) ∧
  (∀ n p, n ∈ tree_order d' →
          attribute_of d' n "data-path" = Some p →
          ("focused" ∈ classes_of d' n ↔ p ∈ focusedPaths (this w))).
Proof.
  intros Hwf. cbv zeta. split.
  - rewrite updateFocusStyles_body. unfold classes_of.
    rewrite updateFocusStyles_lookup.
    assert (is_Some (heap (document w) !! body (document w))) as [el Hel].
    { unfold well_formed in Hwf. rewrite Forall_forall in Hwf. apply Hwf.
      unfold tree_order. set_solver. }
    rewrite Hel. simpl. apply focusMark_focus_class.
  - intros n p Hn Hp. rewrite updateFocusStyles_tree_order in Hn.
    unfold attribute_of, classes_of in *.
    rewrite updateFocusStyles_lookup in *.
    destruct (heap (document w) !! n) as [el|]; simpl in *; [|done].
    apply focusMark_focused; [done|].
    unfold getAttribute in *. by rewrite focusMark_attributes in Hp.
Qed.

Lemma updateFocusStyles_marks_witness :
  well_formed (document world1) ∧
  let d' := document (updateFocusStyles world1) in
  (focus_class ∈ classes_of d' (body d') ↔
   enableFocus (settings (this world1)) = true) ∧
  (∀ n p, n ∈ tree_order d' →
          attribute_of d' n "data-path" = Some p →
          ("focused" ∈ classes_of d' n ↔ p ∈ focusedPaths (this world1))).
Proof.
  assert (well_formed (document world1)) as Hwf.
  { by_evaluation. }
  split; [exact Hwf|]. exact (updateFocusStyles_marks world1 Hwf).
Defined.

(** The classes in [world1] after marking: the open file and its folder
    are focused, the other file is not. *)
Example updateFocusStyles_world1 :
  let d' := document (updateFocusStyles world1) in
  classes_of d' 2 = {[ focus_class ]} ∧
  classes_of d' 3 = {[ "focused" ]} ∧
  classes_of d' 4 = {[ "focused" ]} ∧
  classes_of d' 5 = ∅.
Proof. cbv zeta. repeat apply conj; vm_compute; reflexivity. Qed.

(** C7. [updateFocusStyles] is idempotent: a second application in a row
    leaves the whole state, and so every class of every element, as the
    first one left it. *)
Theorem updateFocusStyles_idempotent w :
  updateFocusStyles (updateFocusStyles w) = updateFocusStyles w.
Proof.
  apply World_ext; [done| |done].
  destruct (updateFocusStyles_frame (updateFocusStyles w))
    as (H1 & H2 & H3 & H4 & H5).
  apply Document_ext; try done; [|apply updateFocusStyles_engine].
  apply map_eq. intros k.
  rewrite (updateFocusStyles_lookup (updateFocusStyles w)).
  rewrite updateFocusStyles_lookup.
  destruct (heap (document w) !! k) as [el|]; simpl; [|done].
  by rewrite focusMark_twice.
Qed.

End focus.

(* ===================================================================== *)
(** ** The depth stylesheet: [updateBaseStyles] *)
(* ===================================================================== *)

Section stylesheet.

Implicit Types (w : World) (s : NFLSettings) (n k : nat).

Lemma concat_cons (x : string) (xs : list string) :
  String.concat "" (x :: xs) = x +:+ String.concat "" xs.
Proof.
  destruct xs as [|y ys]; simpl; [by rewrite append_nil_r|done].
Qed.

(** One turn of the loop appends the rule of depth [i]. *)
Lemma baseStylesStep_rule s (acc : string) i :
  baseStylesStep s acc i =
  acc +:+ depth_rule (depth_selector i) (LineStyle_to_string (lineStyle s))
                     (color_text s i).
Proof.
  unfold baseStylesStep, depth_rule, depth_selector, color_text.
  rewrite append_assoc. reflexivity.
Qed.

(** The loop builds the concatenation of the rules of the depths it
    visits, after what it started from. *)
Lemma baseStyles_loop s (l : list nat) (acc : string) :
  foldl (baseStylesStep s) acc l =
  acc +:+ String.concat ""
            (map (λ i, depth_rule (depth_selector i)
                         (LineStyle_to_string (lineStyle s)) (color_text s i))
                 l).
Proof.
  revert acc. induction l as [|i l IH]; intros acc.
  - simpl. by rewrite append_nil_r.
  - simpl foldl. rewrite IH, baseStylesStep_rule, map_cons, concat_cons.
    by rewrite append_assoc.
Qed.

(** The text built by the loop of lines 155-165. *)
Lemma baseStyles_rules s :
  foldl (baseStylesStep s) "" (seq 0 maxLevels) =
  rules (LineStyle_to_string (lineStyle s)) (color_text s) maxLevels.
Proof. rewrite baseStyles_loop. reflexivity. Qed.

Lemma rules_ext (line : string) (f g : nat → string) n :
  (∀ i, i < n → f i = g i) → rules line f n = rules line g n.
Proof.
  intros Hfg. unfold rules. f_equal. apply map_ext_in.
  intros i Hi%in_seq. rewrite Hfg by lia. done.
Qed.

(** What a run of [updateBaseStyles] does when the style element exists. *)
Lemma updateBaseStyles_run w n :
  styleElement (this w) = Some n →
  updateBaseStyles w =
  (Normal,
   set_document
     (update n
        (set_textContent
           (rules (LineStyle_to_string (lineStyle (settings (this w))))
                  (color_text (settings (this w))) maxLevels))
        (update (body (document w))
           (style_setProperty (parseCustomValue (document w))
              unfocused_property (unfocusedColor (settings (this w))))
           (document w)))
     w).
Proof.
  intros Hn. unfold updateBaseStyles. cbn [this document set_document].
  by rewrite Hn, baseStyles_rules.
Qed.

(** The text of the style element after a run. *)
Lemma updateBaseStyles_text w n :
  styleElement (this w) = Some n →
  is_Some (heap (document w) !! n) →
  text_of (document (updateBaseStyles w).2) n =
  rules (LineStyle_to_string (lineStyle (settings (this w))))
        (color_text (settings (this w))) maxLevels.
Proof.
  intros Hn [el Hel]. rewrite (updateBaseStyles_run w n Hn).
  unfold text_of. simpl. rewrite lookup_alter_eq, lookup_alter.
  case_decide; simplify_eq; rewrite Hel; done.
Qed.

(** With a non-empty palette the color of depth [i] is
    [colors[i mod length]]. *)
Lemma color_text_cycle s i (dflt : string) :
  colors s ≠ [] →
  color_text s i = nth (i mod length (colors s)) (colors s) dflt.
Proof.
  intros Hne. unfold color_text, JS.rem.
  assert (length (colors s) ≠ 0) as Hlen by by destruct (colors s).
  rewrite (proj2 (Nat.eqb_neq _ _)) by done. simpl.
  assert (i mod length (colors s) < length (colors s)) as Hlt
    by by apply Nat.mod_upper_bound.
  destruct (lookup_lt_is_Some_2 _ _ Hlt) as [c Hc]. rewrite Hc. simpl.
  rewrite nth_lookup, Hc. done.
Qed.

(** With the empty palette it is the text [undefined]. *)
Lemma color_text_empty s i : colors s = [] → color_text s i = "undefined".
Proof. intros Hnil. unfold color_text. by rewrite Hnil. Qed.

Lemma well_formed_body (d : Document) :
  well_formed d → is_Some (heap d !! body d).
Proof.
  unfold well_formed. rewrite Forall_forall. intros Hwf. apply Hwf.
  unfold tree_order. set_solver.
Qed.

(** C2, as the code has it. [updateBaseStyles] is not a pure text
    builder.  It assigns to the style element a text that is the
    concatenation of the ten depth rules and nothing more, and apart
    from that text it calls [setProperty] for the unfocused color on the
    inline style of the document body: the custom property is removed
    for the empty value, stays as it was for a value that the CSS engine
    of the document does not take, and otherwise becomes what the engine
    keeps of the value.  The call completes normally and leaves the
    plugin object, the workspace, the tree and every other element as
    they were. *)
Theorem updateBaseStyles_effect w n :
  styleElement (this w) = Some n →
  well_formed (document w) →
  is_Some (heap (document w) !! n) →
  let s := settings (this w) in
  let d := document w in
  let r := updateBaseStyles w in
  let d' := document r.2 in
  r.1 = Normal ∧
  text_of d' n =
    rules (LineStyle_to_string (lineStyle s)) (color_text s) maxLevels ∧
  style_of d' (body d) =
    (if decide (unfocusedColor s = "")
     then delete unfocused_property (style_of d (body d))
     else match parseCustomValue d (unfocusedColor s) with
          | Some kept => <[unfocused_property := kept]> (style_of d (body d))
          | None => style_of d (body d)
          end) ∧
  this r.2 = this w ∧ leaves r.2 = leaves w ∧
  tree_order d' = tree_order d ∧
  (∀ k, k ≠ n → k ≠ body d → heap d' !! k = heap d !! k).
Proof.
  intros Hn Hwf Hel. cbv zeta.
  split; [by rewrite (updateBaseStyles_run w n Hn)|].
  split; [by apply updateBaseStyles_text|].
  rewrite (updateBaseStyles_run w n Hn). cbn [snd set_document this document leaves].
  split; [|split; [done|split; [done|split; [done|]]]].
  - destruct (well_formed_body _ Hwf) as [b Hb].
    unfold style_of, update. cbn [heap]. rewrite lookup_alter.
    case_decide; simplify_eq; rewrite lookup_alter_eq, Hb; simpl;
      case_decide; try done; by destruct (parseCustomValue _ _).
  - intros k Hkn Hkb. unfold update. cbn [heap body].
    by rewrite !lookup_alter_ne.
Qed.

Lemma updateBaseStyles_effect_witness :
  let w := world_attached in
  let r := updateBaseStyles w in
  r.1 = Normal ∧
  text_of (document r.2) 6 =
    rules "solid" (color_text DEFAULT_SETTINGS) maxLevels ∧
  style_of (document r.2) 2 = {[ unfocused_property := "#999999" ]}.
Proof.
  assert (well_formed (document world_attached)) as Hwf.
  { by_evaluation. }
  assert (is_Some (heap (document world_attached) !! 6)) as Hel.
  { by_evaluation. }
  destruct (updateBaseStyles_effect world_attached 6 eq_refl Hwf Hel)
    as (H1 & H2 & H3 & _).
  split; [exact H1|]. split; [exact H2|]. etrans; [exact H3|].
  vm_compute. reflexivity.
Defined.

(** C2, as stated, fails: in the world where the style element has just
    been attached, the text assigned to it mentions neither the custom
    property nor the unfocused color, and the call does change the
    document outside that text: the inline style of the body. *)
Lemma updateBaseStyles_text_lacks_property :
  let w := world_attached in
  let r := updateBaseStyles w in
  r.1 = Normal ∧
  JS.includes (text_of (document r.2) 6) unfocused_property = false ∧
  JS.includes (text_of (document r.2) 6)
    (unfocusedColor (settings (this w))) = false ∧
  style_of (document w) 2 !! unfocused_property = None ∧
  style_of (document r.2) 2 !! unfocused_property = Some "#999999".
Proof. cbv zeta. repeat apply conj; vm_compute; reflexivity. Qed.

(** The selector the code builds with [repeat] is the one written out
    level by level. *)
Lemma depth_selector_nested (i : nat) : depth_selector i = nested_selector i.
Proof.
  unfold depth_selector. induction i as [|i IH]; [done|].
  simpl. by rewrite append_assoc, IH.
Qed.

(** The selectors of the first depths, letter by letter. *)
Example depth_selector_texts :
  depth_selector 0 = ".nav-folder-children::before" ∧
  depth_selector 1 = ".nav-folder-children .nav-folder-children::before" ∧
  depth_selector 2 =
    ".nav-folder-children .nav-folder-children .nav-folder-children::before" ∧
  String.length (depth_selector 9) = 9 * 21 + 28.
Proof. repeat split. Qed.

(** One rule, letter by letter. *)
Example depth_rule_text :
  depth_rule ".nav-folder-children::before" "solid" "#111" =
"
                .nav-folder-children::before {
                    border-left: 1px solid #111;
                }
            ".
Proof. reflexivity. Qed.

(** C3. With a non-empty palette the text is one rule per depth [i] from
    0 up to but excluding 10; the selector of depth [i] is the base
    selector with the child-container fragment written [i] times in
    front of it, and its declaration uses [lineStyle] and
    [colors[i mod length colors]]. *)
Theorem updateBaseStyles_cycles w n (dflt : string) :
  colors (settings (this w)) ≠ [] →
  styleElement (this w) = Some n →
  is_Some (heap (document w) !! n) →
  let s := settings (this w) in
  text_of (document (updateBaseStyles w).2) n =
  String.concat ""
    (map (λ i, depth_rule (nested_selector i)
                 (LineStyle_to_string (lineStyle s))
                 (nth (i mod length (colors s)) (colors s) dflt))
         (seq 0 10)).
Proof.
  intros Hne Hn Hel. cbv zeta. rewrite updateBaseStyles_text by done.
  unfold rules. f_equal. apply map_ext_in. intros i _.
  by rewrite depth_selector_nested, (color_text_cycle _ i dflt).
Qed.

(** The palette of two colors, with the whole text written out: the
    rules of depths 0, 2, 4, 6 and 8 use the first color, the others the
    second, and each selector is one fragment longer than the one
    before. *)
Lemma updateBaseStyles_cycles_witness :
  let w := set_settings two_colors world_attached in
  colors (settings (this w)) ≠ [] ∧
  text_of (document (updateBaseStyles w).2) 6 =
"
                .nav-folder-children::before {
                    border-left: 1px solid #111;
                }
            
                .nav-folder-children .nav-folder-children::before {
                    border-left: 1px solid #222;
                }
            
                .nav-folder-children .nav-folder-children .nav-folder-children::before {
                    border-left: 1px solid #111;
                }
            
                .nav-folder-children .nav-folder-children .nav-folder-children .nav-folder-children::before {
                    border-left: 1px solid #222;
                }
            
                .nav-folder-children .nav-folder-children .nav-folder-children .nav-folder-children .nav-folder-children::before {
                    border-left: 1px solid #111;
                }
            
                .nav-folder-children .nav-folder-children .nav-folder-children .nav-folder-children .nav-folder-children .nav-folder-children::before {
                    border-left: 1px solid #222;
                }
            
                .nav-folder-children .nav-folder-children .nav-folder-children .nav-folder-children .nav-folder-children .nav-folder-children .nav-folder-children::before {
                    border-left: 1px solid #111;
                }
            
                .nav-folder-children .nav-folder-children .nav-folder-children .nav-folder-children .nav-folder-children .nav-folder-children .nav-folder-children .nav-folder-children::before {
                    border-left: 1px solid #222;
                }
            
                .nav-folder-children .nav-folder-children .nav-folder-children .nav-folder-children .nav-folder-children .nav-folder-children .nav-folder-children .nav-folder-children .nav-folder-children::before {
                    border-left: 1px solid #111;
                }
            
                .nav-folder-children .nav-folder-children .nav-folder-children .nav-folder-children .nav-folder-children .nav-folder-children .nav-folder-children .nav-folder-children .nav-folder-children .nav-folder-children::before {
                    border-left: 1px solid #222;
                }
            ".
Proof.
  split; [done|].
  etrans;
    [apply (updateBaseStyles_cycles
              (set_settings two_colors world_attached) 6 "");
       [done|done|by eexists]|].
  vm_compute. reflexivity.
Defined.

(** The palette of two colors: the rules of depths 0 and 2 use the first
    color, those of depths 1 and 3 the second. *)
Example two_colors_rules :
  rules "solid" (λ i, nth (i mod 2) ["#111"; "#222"] "") 10 =
  depth_rule ".nav-folder-children::before" "solid" "#111" +:+
  depth_rule ".nav-folder-children .nav-folder-children::before"
    "solid" "#222" +:+
  depth_rule
    ".nav-folder-children .nav-folder-children .nav-folder-children::before"
    "solid" "#111" +:+
  depth_rule
    (".nav-folder-children .nav-folder-children .nav-folder-children " +:+
     ".nav-folder-children::before")
    "solid" "#222" +:+
  String.concat ""
    (map (λ i, depth_rule (nested_selector i) "solid"
                 (nth (i mod 2) ["#111"; "#222"] "")) (seq 4 6)).
Proof. vm_compute. reflexivity. Qed.

(** C8. The text is a function of the settings alone: two runs with the
    same settings, from whatever plugin state and document, assign the
    same text. *)
Theorem updateBaseStyles_deterministic w1 w2 n1 n2 :
  settings (this w1) = settings (this w2) →
  styleElement (this w1) = Some n1 →
  styleElement (this w2) = Some n2 →
  is_Some (heap (document w1) !! n1) →
  is_Some (heap (document w2) !! n2) →
  text_of (document (updateBaseStyles w1).2) n1 =
  text_of (document (updateBaseStyles w2).2) n2.
Proof.
  intros Hs Hn1 Hn2 Hel1 Hel2.
  rewrite !updateBaseStyles_text by done. by rewrite Hs.
Qed.

Lemma updateBaseStyles_deterministic_witness :
  text_of (document (updateBaseStyles world_attached).2) 6 =
  text_of (document (updateBaseStyles (updateBaseStyles world_attached).2).2) 6.
Proof.
  apply (updateBaseStyles_deterministic world_attached
           (updateBaseStyles world_attached).2 6 6);
    [reflexivity|reflexivity|reflexivity|by eexists|].
  by_evaluation.
Defined.

(** C9. With the empty palette [updateBaseStyles] still completes
    normally, and every one of the ten rules has the text [undefined]
    where its color goes. *)
Theorem updateBaseStyles_empty_palette w n :
  colors (settings (this w)) = [] →
  styleElement (this w) = Some n →
  is_Some (heap (document w) !! n) →
  (updateBaseStyles w).1 = Normal ∧
  text_of (document (updateBaseStyles w).2) n =
  rules (LineStyle_to_string (lineStyle (settings (this w))))
        (λ _, "undefined") 10.
Proof.
  intros Hnil Hn Hel. split.
  - by rewrite (updateBaseStyles_run w n Hn).
  - rewrite updateBaseStyles_text by done.
    apply rules_ext. intros i _. by apply color_text_empty.
Qed.

Lemma updateBaseStyles_empty_palette_witness :
  let w := set_settings no_colors world_attached in
  (updateBaseStyles w).1 = Normal ∧
  text_of (document (updateBaseStyles w).2) 6 =
  rules "dashed" (λ _, "undefined") 10.
Proof.
  apply (updateBaseStyles_empty_palette
           (set_settings no_colors world_attached) 6);
    [reflexivity|reflexivity|by eexists].
Defined.

End stylesheet.

(* ===================================================================== *)
(** ** Shutdown: [onunload] *)
(* ===================================================================== *)

Section shutdown.

Implicit Types (w : World) (n : nat).

(** C5, as the code has it. After [onunload], whatever the focus mode
    was, the style element is no longer in the document and the body
    does not carry the focus-mode class. *)
Theorem onunload_detaches w n :
  styleElement (this w) = Some n →
  let r := onunload w in
  let d' := document r.2 in
  r.1 = Normal ∧
  (n ∉ head_children d') ∧ (n ∉ body_descendants d') ∧
  (focus_class ∉ classes_of d' (body d')).
Proof.
  intros Hn. cbv zeta. unfold onunload. rewrite Hn.
  cbn [fst snd set_document document].
  split; [done|]. split; [|split].
  - cbn. rewrite list_elem_of_filter. naive_solver.
  - cbn. rewrite list_elem_of_filter. naive_solver.
  - unfold classes_of, update. cbn [heap body remove].
    rewrite lookup_alter_eq.
    destruct (heap (document w) !! body (document w)); simpl; set_solver.
Qed.

Lemma onunload_detaches_witness :
  let r := onunload world1 in
  let d' := document r.2 in
  r.1 = Normal ∧
  (6 ∉ head_children d') ∧ (6 ∉ body_descendants d') ∧
  (focus_class ∉ classes_of d' (body d')).
Proof. apply (onunload_detaches world1 6). vm_compute. reflexivity. Defined.

(** C5, as stated, fails: loading the plugin into [world0] and unloading
    it again does not give back the document [world0] had.  The custom
    property written by [updateBaseStyles] stays on the body, and the
    [focused] classes written by [updateFocusStyles] stay on the tracked
    elements. *)
Lemma onunload_does_not_restore :
  let before := document world0 in
  let loaded := onload None world0 in
  let unloaded := onunload loaded.2 in
  let after := document unloaded.2 in
  loaded.1 = Normal ∧ unloaded.1 = Normal ∧
  focus_class ∈ classes_of (document loaded.2) 2 ∧
  style_of before 2 !! unfocused_property = None ∧
  style_of after 2 !! unfocused_property = Some "#999999" ∧
  classes_of before 3 = ∅ ∧ classes_of after 3 = {[ "focused" ]} ∧
  classes_of before 5 = {[ "focused" ]} ∧ classes_of after 5 = ∅.
Proof.
  cbv zeta. split; [vm_compute; reflexivity|].
  split; [vm_compute; reflexivity|].
  split; [by_evaluation|].
  repeat split; vm_compute; reflexivity.
Qed.

End shutdown.

(* ===================================================================== *)
(** ** The focused set after a resolution *)
(* ===================================================================== *)

Section focused_set.

Implicit Types (w : World) (x id : string).

Lemma ancestor_prefixes_no_sep id :
  slash ∉ chars id → ancestor_prefixes id = [].
Proof.
  intros Hid. unfold ancestor_prefixes, segments.
  by rewrite split_no_sep_id.
Qed.

(** C1. After [updateFocusedPaths] the focused set is the union, over
    the open identifiers, of the identifier and its proper ancestor
    prefixes, and holds nothing else; no open identifier gives the empty
    set, and a single identifier without separator gives only itself. *)
Theorem updateFocusedPaths_closure w :
  let result := focusedPaths (this (updateFocusedPaths w)) in
  let opened := openIdentifiers (leaves w) in
  result = resolve opened ∧
  (∀ x, x ∈ result ↔
        ∃ id, id ∈ opened ∧ (x = id ∨ proper_ancestor x id)) ∧
  (opened = [] → result = ∅) ∧
  (∀ id, opened = [id] → slash ∉ chars id → result = {[ id ]}).
Proof.
  cbv zeta. rewrite updateFocusedPaths_resolve.
  split; [done|]. split; [intros x; apply elem_of_resolve|]. split.
  - by intros ->.
  - intros id -> Hid. unfold resolve. simpl.
    rewrite ancestor_prefixes_no_sep by done. simpl. set_solver.
Qed.

Lemma updateFocusedPaths_closure_witness :
  focusedPaths (this (updateFocusedPaths (with_leaves [leaf_of "A"] world1)))
  = {[ "A" ]} ∧
  focusedPaths (this (updateFocusedPaths (with_leaves [] world1))) = ∅ ∧
  focusedPaths
    (this (updateFocusedPaths (with_leaves [leaf_of "A/B/C"] world1)))
  = {[ "A/B/C"; "A"; "A/B" ]}.
Proof.
  split; [|split].
  - apply (proj2 (proj2 (proj2
       (updateFocusedPaths_closure (with_leaves [leaf_of "A"] world1)))) "A").
    + reflexivity.
    + by_evaluation.
  - apply (proj1 (proj2 (proj2
       (updateFocusedPaths_closure (with_leaves [] world1))))).
    reflexivity.
  - etrans;
      [apply (proj1 (updateFocusedPaths_closure
                       (with_leaves [leaf_of "A/B/C"] world1)))|].
    vm_compute. reflexivity.
Defined.

(** C6, as the code has it. A resolution rebuilds the focused set from
    scratch: what the set held before has no influence on the result,
    and every entry of the result comes from an identifier that is open
    now.  A layout-change signal and a file-open signal that carries a
    file run such a resolution; a file-open signal without a file runs
    none and leaves the world, the focused set included, as it was. *)
Theorem updateFocusedPaths_rebuilds w :
  (∀ fp, focusedPaths (this (updateFocusedPaths (set_focusedPaths fp w))) =
         focusedPaths (this (updateFocusedPaths w))) ∧
  (∀ x, x ∈ focusedPaths (this (updateFocusedPaths w)) →
        ∃ id, id ∈ openIdentifiers (leaves w) ∧
              (x = id ∨ proper_ancestor x id)) ∧
  focusedPaths (this (on_layout_change w)) =
    resolve (openIdentifiers (leaves w)) ∧
  (∀ file, focusedPaths (this (on_file_open (Some file) w)) =
           resolve (openIdentifiers (leaves w))) ∧
  on_file_open None w = w.
Proof.
  split; [|split; [|split; [|split]]].
  - intros fp. by rewrite !updateFocusedPaths_resolve.
  - intros x. rewrite updateFocusedPaths_resolve. apply elem_of_resolve.
  - apply updateFocusedPaths_resolve.
  - intros file. apply updateFocusedPaths_resolve.
  - reflexivity.
Qed.

Lemma updateFocusedPaths_rebuilds_witness :
  focusedPaths
    (this (updateFocusedPaths
             (set_focusedPaths {[ "old/note.md"; "old" ]} world1))) =
  focusedPaths (this (updateFocusedPaths world1)).
Proof.
  apply (proj1 (updateFocusedPaths_rebuilds world1)).
Defined.

(** C6, as stated, fails for the file-open signal without a file (the
    guard of line 94).  In [world1] the file [A/x.md] is open and the
    set holds it and its folder.  When the file is closed and the
    workspace signals file-open with no file, nothing is open any more,
    and the set still holds the two entries of the closed file. *)
Lemma file_open_without_file_keeps_stale :
  let w := on_file_open None (with_leaves [] world1) in
  openIdentifiers (leaves w) = [] ∧
  focusedPaths (this w) = {[ "A/x.md"; "A" ]} ∧
  ¬ (∀ x, x ∈ focusedPaths (this w) →
          ∃ id, id ∈ openIdentifiers (leaves w) ∧
                (x = id ∨ proper_ancestor x id)).
Proof.
  cbv zeta. split; [reflexivity|]. split; [vm_compute; reflexivity|].
  intros Hall. destruct (Hall "A") as (id & Hid & _).
  - by_evaluation.
  - change (id ∈ @nil string) in Hid. by apply elem_of_nil in Hid.
Qed.

(** An entry left from a closed item is gone after the next resolution. *)
Example stale_entry_dropped :
  "old" ∉ focusedPaths
    (this (updateFocusedPaths
             (set_focusedPaths {[ "old/note.md"; "old" ]} world1))).
Proof. by_evaluation. Qed.

(** C10. An open identifier that begins with the separator puts the
    empty string into the focused set; the single identifier [/A/B]
    gives the set of [/A/B], the empty string and [/A]. *)
Theorem leading_separator_adds_empty w :
  (∀ rest, "/" +:+ rest ∈ openIdentifiers (leaves w) →
           "" ∈ focusedPaths (this (updateFocusedPaths w))) ∧
  (openIdentifiers (leaves w) = ["/A/B"] →
   focusedPaths (this (updateFocusedPaths w)) = {[ "/A/B"; ""; "/A" ]}).
Proof.
  rewrite updateFocusedPaths_resolve. split.
  - intros rest Hin. apply elem_of_resolve. eexists. split; [exact Hin|].
    right. apply proper_ancestor_prefix. by exists rest.
  - intros ->. vm_compute. reflexivity.
Qed.

Lemma leading_separator_adds_empty_witness :
  let w := with_leaves [leaf_of "/A/B"] world1 in
  "" ∈ focusedPaths (this (updateFocusedPaths w)) ∧
  focusedPaths (this (updateFocusedPaths w)) = {[ "/A/B"; ""; "/A" ]}.
Proof.
  split.
  - apply (proj1 (leading_separator_adds_empty
                    (with_leaves [leaf_of "/A/B"] world1)) "A/B").
    by_evaluation.
  - apply (proj2 (leading_separator_adds_empty
                    (with_leaves [leaf_of "/A/B"] world1))).
    reflexivity.
Defined.

End focused_set.

(* ===================================================================== *)
(** ** From [onload] to [onunload] *)
(* ===================================================================== *)

Section lifecycle.

Implicit Types (w : World) (es : list Event).

Lemma andThen_normal (m k : World → completion * World) w w' :
  m w = (Normal, w') → (m ;> k) w = k w'.
Proof. intros Hm. unfold andThen. by rewrite Hm. Qed.

Lemma updateFocusStyles_loaded w : loaded w → loaded (updateFocusStyles w).
Proof.
  intros (n & Hn & Hel). exists n. split; [done|].
  rewrite updateFocusStyles_lookup. by apply fmap_is_Some.
Qed.

Lemma updateFocusedPaths_loaded w : loaded w → loaded (updateFocusedPaths w).
Proof.
  intros Hw. unfold updateFocusedPaths. by apply updateFocusStyles_loaded.
Qed.

Lemma updateFocusedPaths_head_children w :
  head_children (document (updateFocusedPaths w)) =
  head_children (document w).
Proof.
  unfold updateFocusedPaths. cbv zeta.
  by destruct (updateFocusStyles_frame
       (set_focusedPaths
          (foldl visitLeaf (focusedPaths (this (set_focusedPaths ∅ w)))
             (getLeavesOfType "markdown" (leaves (set_focusedPaths ∅ w))))
          (set_focusedPaths ∅ w))) as (_ & _ & _ & -> & _).
Qed.

(** Once the style element exists, [updateBaseStyles] cannot raise. *)
Lemma updateBaseStyles_loaded w :
  loaded w →
  (updateBaseStyles w).1 = Normal ∧ loaded (updateBaseStyles w).2.
Proof.
  intros (n & Hn & Hel). rewrite (updateBaseStyles_run w n Hn).
  split; [done|]. exists n. split; [done|].
  unfold update. cbn [snd set_document document heap].
  by rewrite !lookup_alter_is_Some.
Qed.

Lemma saveSettings_loaded w :
  loaded w → (saveSettings w).1 = Normal ∧ loaded (saveSettings w).2.
Proof.
  intros Hw. destruct (updateBaseStyles_loaded w Hw) as [Hc Hl].
  unfold saveSettings.
  destruct (updateBaseStyles w) as [c w'] eqn:Hrun. simpl in Hc, Hl. subst c.
  rewrite (andThen_normal _ _ _ _ Hrun). unfold total.
  split; [done|]. by apply updateFocusedPaths_loaded.
Qed.

(** [onload] creates the style element before anything uses it: it
    completes normally and leaves the plugin loaded, with the style
    element as the last child of the head. *)
Lemma onload_loaded (data : option StoredData) w :
  (onload data w).1 = Normal ∧ loaded (onload data w).2 ∧
  ∃ n, styleElement (this (onload data w).2) = Some n ∧
       last (head_children (document (onload data w).2)) = Some n ∧
       heap (document w) !! n = None.
Proof.
  unfold onload.
  rewrite (andThen_normal _ _ w (loadSettings data w)) by done.
  set (w1 := loadSettings data w).
  set (n := fresh (dom (heap (document w1)))).
  erewrite andThen_normal by reflexivity.
  match goal with |- context [(updateBaseStyles ;> _) ?x] => set (w2 := x) end.
  assert (styleElement (this w2) = Some n) as Hn by done.
  assert (loaded w2) as Hw2.
  { exists n. split; [done|]. unfold w2. cbn.
    rewrite lookup_alter_is_Some. fold n. by rewrite lookup_insert_eq. }
  destruct (updateBaseStyles_loaded w2 Hw2) as [Hc Hl].
  pose proof (updateBaseStyles_run w2 n Hn) as Hrun.
  rewrite (andThen_normal _ _ _ _ Hrun). unfold total.
  rewrite Hrun in Hl. cbn [fst snd] in *.
  split; [done|]. split; [by apply updateFocusedPaths_loaded|].
  exists n. split; [done|]. split.
  - rewrite updateFocusedPaths_head_children. cbn. fold n. apply last_snoc.
  - apply not_elem_of_dom. apply is_fresh.
Qed.

(** No event between [onload] and [onunload] raises or unloads. *)
Lemma run_loaded es w :
  loaded w → (run es w).1 = Normal ∧ loaded (run es w).2.
Proof.
  revert w. induction es as [|e es IH]; intros w Hw; [done|].
  simpl run.
  assert (∃ w', handle e w = (Normal, w') ∧ loaded w') as (w' & He & Hw').
  { destruct e as [file| |s|ls]; simpl handle.
    - eexists. split; [done|]. destruct file; simpl; [|done].
      by apply updateFocusedPaths_loaded.
    - eexists. split; [done|]. by apply updateFocusedPaths_loaded.
    - rewrite (andThen_normal _ _ w (set_settings s w)) by done.
      assert (loaded (set_settings s w)) as Hs by done.
      destruct (saveSettings_loaded _ Hs) as [Hc Hl].
      destruct (saveSettings (set_settings s w)) as [c w'] eqn:Hrun.
      simpl in Hc, Hl. subst c. by exists w'.
    - eexists. split; [done|]. done. }
  rewrite (andThen_normal _ _ _ _ He). by apply IH.
Qed.

(** [world_attached] is [world0] in the middle of [onload]. *)
Example onload_from_world_attached :
  onload None world0 =
  (updateBaseStyles ;> total updateFocusedPaths) world_attached.
Proof. vm_compute. reflexivity. Qed.

(** A whole session completes normally. *)
Lemma session_completes (data : option StoredData) es w :
  ((onload data ;> run es ;> onunload) w).1 = Normal.
Proof.
  destruct (onload_loaded data w) as (Hc & Hl & _).
  destruct (onload data w) as [c w1] eqn:Hload. simpl in Hc, Hl. subst c.
  rewrite (andThen_normal _ _ _ _ Hload).
  destruct (run_loaded es w1 Hl) as [Hc Hl'].
  destruct (run es w1) as [c w2] eqn:Hrun. simpl in Hc, Hl'. subst c.
  rewrite (andThen_normal _ _ _ _ Hrun).
  destruct Hl' as (n & Hn & _). unfold onunload. by rewrite Hn.
Qed.

End lifecycle.

(* ===================================================================== *)
(** ** More on the resolver *)
(* ===================================================================== *)

Section resolver_more.

Implicit Types (fp : gset string) (x y p : string) (w : World).

Lemma elem_of_resolve_chars x (l : list string) :
  x ∈ resolve l ↔ ∃ id, id ∈ l ∧ (x = id ∨ continued_by_slash x id).
Proof.
  rewrite elem_of_resolve. unfold continued_by_slash.
  split; intros (id & Hid & Hx); exists id; (split; [done|]);
    destruct Hx as [->|Hx]; [by left| |by left|]; right;
    by apply proper_ancestor_prefix.
Qed.

Lemma continued_by_slash_trans x y z :
  continued_by_slash x y → continued_by_slash y z → continued_by_slash x z.
Proof.
  intros [r1 ->] [r2 ->]. exists (r1 +:+ "/" +:+ r2).
  by rewrite !append_assoc.
Qed.

Lemma resolve_mono (l1 l2 : list string) :
  (∀ id, id ∈ l1 → id ∈ l2) → resolve l1 ⊆ resolve l2.
Proof.
  intros Hsub x. rewrite !elem_of_resolve.
  intros (id & Hid & Hx). exists id. split; [by apply Hsub|done].
Qed.

Lemma size_union_le fp1 fp2 : size (fp1 ∪ fp2) ≤ size fp1 + size fp2.
Proof.
  rewrite size_union_alt.
  assert (size (fp2 ∖ fp1) ≤ size fp2); [|lia].
  apply subseteq_size. set_solver.
Qed.

Lemma size_list_to_set_le (l : list string) :
  size (list_to_set l : gset string) ≤ length l.
Proof.
  induction l as [|a l IH].
  - by rewrite list_to_set_nil, size_empty.
  - rewrite list_to_set_cons. etrans; [apply size_union_le|].
    rewrite size_singleton. simpl. lia.
Qed.

(** X1. What one open file adds to the set (lines 133-141): the path
    itself and every string that the path continues with a separator,
    and nothing else. *)
Theorem addFile_entries fp p x :
  x ∈ addFile fp p ↔ x ∈ fp ∨ x = p ∨ continued_by_slash x p.
Proof.
  rewrite addFile_spec, !elem_of_union, elem_of_singleton,
    elem_of_list_to_set, elem_of_ancestor_prefixes.
  unfold continued_by_slash. rewrite proper_ancestor_prefix. tauto.
Qed.

(** X2. The focused set is closed under ancestors: with an entry it holds
    every string that the entry continues with a separator. *)
Theorem focused_set_ancestor_closed w x y :
  x ∈ focusedPaths (this (updateFocusedPaths w)) →
  continued_by_slash y x →
  y ∈ focusedPaths (this (updateFocusedPaths w)).
Proof.
  rewrite updateFocusedPaths_resolve, !elem_of_resolve_chars.
  intros (id & Hid & Hx) Hy. exists id. split; [done|]. right.
  destruct Hx as [->|Hx]; [done|]. by apply (continued_by_slash_trans _ x).
Qed.

Lemma focused_set_ancestor_closed_witness :
  "A" ∈ focusedPaths
    (this (updateFocusedPaths (with_leaves [leaf_of "A/B/C.md"] world1))).
Proof.
  apply (focused_set_ancestor_closed _ "A/B" "A").
  - by_evaluation.
  - by exists "B".
Defined.

(** X3. The resolver invents nothing: every entry of the focused set is
    an initial part of an open identifier. *)
Theorem focused_entries_are_prefixes w x :
  x ∈ focusedPaths (this (updateFocusedPaths w)) →
  ∃ id rest, id ∈ openIdentifiers (leaves w) ∧ id = x +:+ rest.
Proof.
  rewrite updateFocusedPaths_resolve, elem_of_resolve_chars.
  intros (id & Hid & [->|[rest ->]]).
  - exists id, "". by rewrite append_nil_r.
  - by eexists _, _.
Qed.

Lemma focused_entries_are_prefixes_witness :
  ∃ id rest,
    id ∈ openIdentifiers (leaves (with_leaves [leaf_of "A/B/C.md"] world1)) ∧
    id = "A/B" +:+ rest.
Proof.
  apply (focused_entries_are_prefixes
           (with_leaves [leaf_of "A/B/C.md"] world1) "A/B").
  by_evaluation.
Defined.

(** X4. Opening more never removes an entry: when every open identifier
    of one world is open in another, the focused set of the first is
    part of that of the second. *)
Theorem focused_set_monotone w1 w2 :
  (∀ id, id ∈ openIdentifiers (leaves w1) →
         id ∈ openIdentifiers (leaves w2)) →
  focusedPaths (this (updateFocusedPaths w1)) ⊆
  focusedPaths (this (updateFocusedPaths w2)).
Proof.
  intros Hsub. rewrite !updateFocusedPaths_resolve. by apply resolve_mono.
Qed.

Lemma focused_set_monotone_witness :
  focusedPaths
    (this (updateFocusedPaths (with_leaves [leaf_of "A/x.md"] world1))) ⊆
  focusedPaths
    (this (updateFocusedPaths
             (with_leaves [leaf_of "B/y.md"; leaf_of "A/x.md"] world1))).
Proof.
  apply focused_set_monotone. intros id Hid.
  change (id ∈ ["A/x.md"]) in Hid. change (id ∈ ["B/y.md"; "A/x.md"]).
  apply list_elem_of_further. exact Hid.
Defined.

(** X5. The order of the leaves and repeated files do not matter: the
    focused set depends only on which identifiers are open. *)
Theorem focused_set_order_irrelevant w1 w2 :
  (∀ id, id ∈ openIdentifiers (leaves w1) ↔
         id ∈ openIdentifiers (leaves w2)) →
  focusedPaths (this (updateFocusedPaths w1)) =
  focusedPaths (this (updateFocusedPaths w2)).
Proof.
  intros Hsame. rewrite !updateFocusedPaths_resolve.
  apply set_eq. intros x. rewrite !elem_of_resolve.
  split; intros (id & Hid & Hx); exists id; (split; [by apply Hsame|done]).
Qed.

Lemma focused_set_order_irrelevant_witness :
  focusedPaths
    (this (updateFocusedPaths
             (with_leaves [leaf_of "A/x.md"; leaf_of "B/y.md";
                           leaf_of "A/x.md"] world1))) =
  focusedPaths
    (this (updateFocusedPaths
             (with_leaves [leaf_of "B/y.md"; leaf_of "A/x.md"] world1))).
Proof.
  apply focused_set_order_irrelevant. intros id.
  change (id ∈ ["A/x.md"; "B/y.md"; "A/x.md"] ↔ id ∈ ["B/y.md"; "A/x.md"]).
  rewrite !elem_of_cons. rewrite elem_of_nil. tauto.
Defined.

(** X6. The focused set has at most one entry per segment of each open
    identifier. *)
Theorem focused_set_size w :
  size (focusedPaths (this (updateFocusedPaths w))) ≤
  sum_list ((λ id, length (segments id)) <$> openIdentifiers (leaves w)).
Proof.
  rewrite updateFocusedPaths_resolve.
  induction (openIdentifiers (leaves w)) as [|id l IH].
  - change (resolve []) with (∅ : gset string). by rewrite size_empty.
  - change (resolve (id :: l))
      with (({[ id ]} ∪ list_to_set (ancestor_prefixes id)) ∪ resolve l).
    etrans; [apply size_union_le|]. simpl.
    apply Nat.add_le_mono; [|exact IH].
    etrans; [apply size_union_le|]. rewrite size_singleton.
    pose proof (size_list_to_set_le (ancestor_prefixes id)) as Hle.
    unfold ancestor_prefixes in Hle at 2.
    rewrite length_map, length_seq in Hle.
    pose proof (split_length_pos slash id). unfold segments in *. lia.
Qed.

End resolver_more.

(* ===================================================================== *)
(** ** Resolution and marking together *)
(* ===================================================================== *)

Section marking_more.

Implicit Types (w : World) (k n : nat) (p : string).

Lemma visitLeaf_ignored (fp : gset string) (leaf : WorkspaceLeaf) :
  view leaf = OtherView ∨ view leaf = MarkdownView None →
  visitLeaf fp leaf = fp.
Proof. unfold visitLeaf. by intros [->| ->]. Qed.

Lemma visit_without (fp : gset string) (l1 l2 : list WorkspaceLeaf)
    (leaf : WorkspaceLeaf) :
  viewType leaf ≠ "markdown" ∨ view leaf = OtherView ∨
    view leaf = MarkdownView None →
  foldl visitLeaf fp (getLeavesOfType "markdown" (l1 ++ leaf :: l2)) =
  foldl visitLeaf fp (getLeavesOfType "markdown" (l1 ++ l2)).
Proof.
  intros Hleaf. unfold getLeavesOfType.
  rewrite !filter_app, filter_cons, !foldl_app.
  case_decide as Ht; [|done].
  destruct Hleaf as [Hleaf|Hleaf]; [done|].
  simpl foldl. by rewrite visitLeaf_ignored.
Qed.

(** X7. A leaf that is not of type markdown, whose view is not a
    [MarkdownView], or whose view has no file, is skipped: with or
    without it among the leaves, a resolution leaves the same plugin
    state and the same document. *)
Theorem leaf_without_file_skipped w (l1 l2 : list WorkspaceLeaf)
    (leaf : WorkspaceLeaf) :
  viewType leaf ≠ "markdown" ∨ view leaf = OtherView ∨
    view leaf = MarkdownView None →
  this (updateFocusedPaths (with_leaves (l1 ++ leaf :: l2) w)) =
    this (updateFocusedPaths (with_leaves (l1 ++ l2) w)) ∧
  document (updateFocusedPaths (with_leaves (l1 ++ leaf :: l2) w)) =
    document (updateFocusedPaths (with_leaves (l1 ++ l2) w)).
Proof.
  intros Hleaf. unfold updateFocusedPaths. cbv zeta.
  cbn [leaves with_leaves set_focusedPaths this focusedPaths].
  rewrite (visit_without _ _ _ _ Hleaf). done.
Qed.

Lemma leaf_without_file_skipped_witness :
  let skipped := mkLeaf "markdown" (MarkdownView None) in
  this (updateFocusedPaths
          (with_leaves ([leaf_of "A/x.md"] ++ skipped :: [leaf_of "B.md"])
             world1)) =
    this (updateFocusedPaths
            (with_leaves ([leaf_of "A/x.md"] ++ [leaf_of "B.md"]) world1)) ∧
  document (updateFocusedPaths
          (with_leaves ([leaf_of "A/x.md"] ++ skipped :: [leaf_of "B.md"])
             world1)) =
    document (updateFocusedPaths
            (with_leaves ([leaf_of "A/x.md"] ++ [leaf_of "B.md"]) world1)).
Proof.
  apply (leaf_without_file_skipped world1 [leaf_of "A/x.md"]
           [leaf_of "B.md"] (mkLeaf "markdown" (MarkdownView None))).
  right. right. reflexivity.
Defined.

(** The [focused] class of a tracked element after marking, read from
    the state before. *)
Lemma marks_after_marking w n p :
  n ∈ tree_order (document w) →
  attribute_of (document w) n "data-path" = Some p →
  "focused" ∈ classes_of (document (updateFocusStyles w)) n ↔
  p ∈ focusedPaths (this w).
Proof.
  intros Hn Hp. unfold classes_of. rewrite updateFocusStyles_lookup.
  unfold attribute_of in Hp.
  destruct (heap (document w) !! n) as [el|]; [|done]. simpl in Hp. simpl.
  by apply focusMark_focused.
Qed.

(** X8. After a resolution, an element of the document with a
    [data-path] attribute carries the [focused] class exactly when its
    path is an open identifier or is continued by a separator in one. *)
Theorem updateFocusedPaths_marks_open w n p :
  n ∈ tree_order (document w) →
  attribute_of (document w) n "data-path" = Some p →
  "focused" ∈ classes_of (document (updateFocusedPaths w)) n ↔
  ∃ id, id ∈ openIdentifiers (leaves w) ∧ (p = id ∨ continued_by_slash p id).
Proof.
  intros Hn Hp. rewrite <- elem_of_resolve_chars.
  rewrite <- (updateFocusedPaths_resolve w).
  unfold updateFocusedPaths at 1. cbv zeta.
  rewrite marks_after_marking; [|exact Hn|exact Hp].
  unfold updateFocusedPaths. by rewrite updateFocusStyles_this.
Qed.

Lemma updateFocusedPaths_marks_open_witness :
  "focused" ∈ classes_of (document (updateFocusedPaths world1)) 3.
Proof.
  apply (updateFocusedPaths_marks_open world1 3 "A").
  - by_evaluation.
  - reflexivity.
  - exists "A/x.md". split; [by_evaluation|]. right. by exists "x.md".
Defined.

Lemma classList_toggle_other token force (el : Element) (c : string) :
  c ≠ token → c ∈ classList (classList_toggle token force el) ↔ c ∈ classList el.
Proof. intros Hc. destruct force; simpl; set_solver. Qed.

Lemma focusMark_other_class w k (el : Element) (c : string) :
  c ≠ focus_class → c ≠ "focused" →
  c ∈ classList (focusMark w k el) ↔ c ∈ classList el.
Proof.
  intros Hc1 Hc2. unfold focusMark, markFocused.
  repeat case_decide; rewrite ?classList_toggle_other by done; done.
Qed.

Lemma focusMark_localName w k (el : Element) :
  localName (focusMark w k el) = localName el.
Proof. unfold focusMark. by repeat case_decide. Qed.

Lemma focusMark_same_but_marks w k (el : Element) :
  same_but_marks el (focusMark w k el) ∧ style (focusMark w k el) = style el.
Proof.
  unfold same_but_marks.
  rewrite focusMark_attributes, focusMark_style, focusMark_textContent,
    focusMark_localName.
  split; [|done]. split; [done|]. split; [done|]. split; [done|].
  split; [|done]. intros c Hc1 Hc2. by apply focusMark_other_class.
Qed.

(** X9. What [updateFocusStyles] never touches: the plugin object, the
    leaves and the tree; of every element the name, the attributes, the
    inline style, the text and every class other than the two it sets;
    and anything at all of an element that is neither the body nor a
    connected element with a [data-path] attribute. *)
Theorem updateFocusStyles_touches_only_marks w k :
  let d := document w in
  let d' := document (updateFocusStyles w) in
  this (updateFocusStyles w) = this w ∧
  leaves (updateFocusStyles w) = leaves w ∧
  tree_order d' = tree_order d ∧
  (heap d !! k = None → heap d' !! k = None) ∧
  (∀ el, heap d !! k = Some el →
         ∃ el', heap d' !! k = Some el' ∧ same_but_marks el el' ∧
                style el' = style el) ∧
  (k ≠ body d →
   k ∉ tree_order d ∨ attribute_of d k "data-path" = None →
   heap d' !! k = heap d !! k).
Proof.
  cbv zeta. split; [done|]. split; [done|].
  split; [apply updateFocusStyles_tree_order|].
  rewrite updateFocusStyles_lookup. split; [by intros ->|]. split.
  - intros el ->. eexists. split; [done|]. apply focusMark_same_but_marks.
  - intros Hk Hun. unfold attribute_of in Hun.
    destruct (heap (document w) !! k) as [el|]; [|done]. simpl in *.
    f_equal. unfold focusMark.
    rewrite (decide_False (P := k = body (document w))) by done.
    rewrite decide_False; [done|].
    intros [Hin Hattr]. destruct Hun as [Hun|Hun]; [done|].
    rewrite Hun in Hattr. by destruct Hattr.
Qed.

Lemma updateFocusStyles_touches_only_marks_witness :
  heap (document (updateFocusStyles world1)) !! 1 =
  heap (document world1) !! 1.
Proof.
  apply (updateFocusStyles_touches_only_marks world1 1).
  - discriminate.
  - right. reflexivity.
Defined.

End marking_more.

(* ===================================================================== *)
(** ** More on the stylesheet and on the edges of the life cycle *)
(* ===================================================================== *)

Section edges.

Implicit Types (w : World) (n k i j : nat) (s t : string).

Lemma length_append s t :
  String.length (s +:+ t) = String.length s + String.length t.
Proof.
  induction s as [|c s IH]; [done|]. rewrite append_cons. simpl. by rewrite IH.
Qed.

Lemma length_repeat s n :
  String.length (JS.repeat s n) = n * String.length s.
Proof.
  induction n as [|n IH]; [done|]. simpl. rewrite length_append, IH. lia.
Qed.

(** X10. No two depths share a selector, so no rule of the stylesheet
    is written twice or overrides another. *)
Theorem depth_selectors_distinct i j :
  i ≠ j → depth_selector i ≠ depth_selector j.
Proof.
  intros Hij Heq. apply (f_equal String.length) in Heq.
  unfold depth_selector in Heq. rewrite !length_append, !length_repeat in Heq.
  simpl in Heq. lia.
Qed.

Lemma depth_selectors_distinct_witness :
  depth_selector 2 ≠ depth_selector 9.
Proof. apply depth_selectors_distinct. discriminate. Defined.

Lemma classList_remove_idemp token (el : Element) :
  classList_remove token (classList_remove token el) =
  classList_remove token el.
Proof. unfold classList_remove. simpl. f_equal. set_solver. Qed.

Lemma remove_remove n (d : Document) : remove n (remove n d) = remove n d.
Proof.
  unfold remove. simpl. f_equal; apply list_filter_filter_l; done.
Qed.

(** X12. [onunload] is idempotent, whether it completes or raises: the
    field [styleElement] is not cleared, so a second call finds the same
    element, already detached, and the class, already gone. *)
Theorem onunload_idempotent w : onunload (onunload w).2 = onunload w.
Proof.
  unfold onunload. destruct (styleElement (this w)) as [n|] eqn:Hn.
  - cbn [snd set_document this document]. rewrite Hn. f_equal.
    unfold set_document. cbn [this document leaves]. f_equal.
    apply Document_ext; try done.
    + unfold update, remove. cbn [heap body].
      rewrite alter_alter_eq. apply alter_ext.
      intros el _. apply classList_remove_idemp.
    + cbn. apply list_filter_filter_l. done.
    + cbn. apply list_filter_filter_l. done.
  - cbn [snd]. by rewrite Hn.
Qed.



End edges.

(* ===================================================================== *)
(** ** A session, step by step *)
(* ===================================================================== *)

Section session.

Implicit Types (w : World) (d : Document) (n k : nat) (el : Element).

(** The heap after [updateFocusedPaths], object by object. *)
Lemma updateFocusedPaths_lookup w k :
  heap (document (updateFocusedPaths w)) !! k =
  focusMark (set_focusedPaths (resolve (openIdentifiers (leaves w))) w) k
    <$> heap (document w) !! k.
Proof.
  unfold updateFocusedPaths. cbv zeta. rewrite updateFocusStyles_lookup.
  cbn [leaves set_focusedPaths this focusedPaths document].
  rewrite visit_leaves, (left_id_L ∅ (∪)). done.
Qed.

Lemma updateFocusedPaths_fields w :
  let w' := updateFocusedPaths w in
  styleElement (this w') = styleElement (this w) ∧
  settings (this w') = settings (this w) ∧
  leaves w' = leaves w ∧
  documentElement (document w') = documentElement (document w) ∧
  head (document w') = head (document w) ∧
  body (document w') = body (document w) ∧
  head_children (document w') = head_children (document w) ∧
  body_descendants (document w') = body_descendants (document w).
Proof.
  cbv zeta. unfold updateFocusedPaths. cbv zeta.
  match goal with |- context [updateFocusStyles ?x] =>
    destruct (updateFocusStyles_frame x) as (H1 & H2 & H3 & H4 & H5) end.
  cbv zeta in *. rewrite H1, H2, H3, H4, H5. done.
Qed.

(** The heap after [updateBaseStyles], object by object. *)
Lemma updateBaseStyles_lookup w n k :
  styleElement (this w) = Some n →
  heap (document (updateBaseStyles w).2) !! k =
  (if decide (k = n)
   then set_textContent
          (rules (LineStyle_to_string (lineStyle (settings (this w))))
                 (color_text (settings (this w))) maxLevels)
   else id) <$>
  ((if decide (k = body (document w))
    then style_setProperty (parseCustomValue (document w))
           unfocused_property (unfocusedColor (settings (this w)))
    else id) <$> heap (document w) !! k).
Proof.
  intros Hn. rewrite (updateBaseStyles_run w n Hn).
  unfold update. cbn [snd set_document document heap].
  rewrite !lookup_alter.
  repeat case_decide; simplify_eq; try done;
    destruct (heap (document w) !! _); done.
Qed.

Lemma updateBaseStyles_fields w n :
  styleElement (this w) = Some n →
  let w' := (updateBaseStyles w).2 in
  (updateBaseStyles w).1 = Normal ∧
  this w' = this w ∧ leaves w' = leaves w ∧
  documentElement (document w') = documentElement (document w) ∧
  head (document w') = head (document w) ∧
  body (document w') = body (document w) ∧
  head_children (document w') = head_children (document w) ∧
  body_descendants (document w') = body_descendants (document w).
Proof. intros Hn. cbv zeta. by rewrite (updateBaseStyles_run w n Hn). Qed.

Lemma style_setProperty_lookup (parse : string → option string)
    (value : string) el :
  style (style_setProperty parse unfocused_property value el)
    !! unfocused_property =
  property_after parse value (style el !! unfocused_property).
Proof.
  unfold style_setProperty, property_after. simpl.
  case_decide; [apply lookup_delete_eq|].
  destruct (parse value); [apply lookup_insert_eq|done].
Qed.

(** What [saveSettings] establishes from a loaded plugin. *)
Lemma saveSettings_run w n :
  styleElement (this w) = Some n →
  is_Some (heap (document w) !! n) →
  is_Some (heap (document w) !! body (document w)) →
  let s := settings (this w) in
  let r := saveSettings w in
  let d' := document r.2 in
  r.1 = Normal ∧
  styleElement (this r.2) = Some n ∧ settings (this r.2) = s ∧
  leaves r.2 = leaves w ∧
  focusedPaths (this r.2) = resolve (openIdentifiers (leaves w)) ∧
  body d' = body (document w) ∧
  head_children d' = head_children (document w) ∧
  is_Some (heap d' !! n) ∧ is_Some (heap d' !! body d') ∧
  text_of d' n =
    rules (LineStyle_to_string (lineStyle s)) (color_text s) maxLevels ∧
  (style_of d' (body d') !! unfocused_property =
     property_after (parseCustomValue (document w)) (unfocusedColor s)
       (style_of (document w) (body (document w)) !! unfocused_property)) ∧
  (focus_class ∈ classes_of d' (body d') ↔ enableFocus s = true).
Proof.
  intros Hn [eln Heln] [elb Helb]. cbv zeta.
  destruct (updateBaseStyles_fields w n Hn)
    as (Hc & Hthis & Hl & _ & _ & Hb & Hhc & _).
  pose proof (updateBaseStyles_lookup w n) as Hlook.
  unfold saveSettings.
  destruct (updateBaseStyles w) as [c w1] eqn:Hrun.
  cbn [fst snd] in *. subst c.
  rewrite (andThen_normal _ _ _ _ Hrun). unfold total. cbn [fst snd].
  destruct (updateFocusedPaths_fields w1)
    as (Hs1 & Hs2 & Hl1 & _ & _ & Hb1 & Hhc1 & _).
  cbv zeta in *.
  rewrite updateFocusedPaths_resolve, Hs1, Hs2, Hl1, Hb1, Hhc1, Hthis, Hl,
    Hb, Hhc.
  unfold text_of, style_of, classes_of.
  rewrite !updateFocusedPaths_lookup, !Hlook, Heln, Helb by done. simpl.
  split_and!; try done.
  - rewrite focusMark_textContent. by rewrite decide_True by done.
  - rewrite focusMark_style.
    rewrite (decide_True (P := body (document w) = body (document w))) by done.
    case_decide; simpl; apply style_setProperty_lookup.
  - rewrite <- Hb.
    match goal with |- context [focusMark ?ww _ ?e] =>
      pose proof (focusMark_focus_class ww e) as Hfc end.
    cbn [document set_focusedPaths this settings] in Hfc.
    by rewrite Hthis in Hfc.
Qed.

(** Neither method replaces the engine of the document. *)
Lemma saveSettings_engine w n :
  styleElement (this w) = Some n →
  parseCustomValue (document (saveSettings w).2) =
  parseCustomValue (document w).
Proof.
  intros Hn. unfold saveSettings.
  pose proof (updateBaseStyles_run w n Hn) as Hrun.
  rewrite (andThen_normal _ _ _ _ Hrun). unfold total. cbn [snd].
  unfold updateFocusedPaths. cbv zeta. by rewrite updateFocusStyles_engine.
Qed.

(** X14. From a loaded plugin and a well-formed document, [saveSettings]
    completes normally and brings what is shown in line with the
    settings and the leaves as they are now: the rules, the focus-mode
    class, the focused set, and the custom property as far as
    [setProperty] goes: removed for the empty unfocused color, left as
    it was for one the engine of the document does not take, and
    otherwise what the engine keeps of it. *)
Theorem saveSettings_syncs w :
  loaded w → well_formed (document w) →
  (saveSettings w).1 = Normal ∧
  settings (this (saveSettings w).2) = settings (this w) ∧
  focusedPaths (this (saveSettings w).2) =
    resolve (openIdentifiers (leaves w)) ∧
  (∀ n, styleElement (this w) = Some n →
        text_of (document (saveSettings w).2) n =
        rules (LineStyle_to_string (lineStyle (settings (this w))))
              (color_text (settings (this w))) maxLevels) ∧
  (style_of (document (saveSettings w).2) (body (document w))
     !! unfocused_property =
   property_after (parseCustomValue (document w))
     (unfocusedColor (settings (this w)))
     (style_of (document w) (body (document w)) !! unfocused_property)) ∧
  (focus_class ∈ classes_of (document (saveSettings w).2)
                   (body (document w)) ↔
   enableFocus (settings (this w)) = true).
Proof.
  intros (n & Hn & Hel) Hwf.
  destruct (saveSettings_run w n Hn Hel (well_formed_body _ Hwf))
    as (H1 & _ & H3 & _ & H5 & H6 & _ & _ & _ & H10 & H11 & H12).
  cbv zeta in *. rewrite H6 in H11, H12.
  split_and!; try done. intros m Hm. by simplify_eq.
Qed.

Lemma saveSettings_syncs_witness :
  let w := set_settings no_colors world1 in
  (saveSettings w).1 = Normal ∧
  text_of (document (saveSettings w).2) 6 =
    rules "dashed" (color_text no_colors) maxLevels ∧
  style_of (document (saveSettings w).2) 2 !! unfocused_property =
    Some "#999999" ∧
  ¬ focus_class ∈ classes_of (document (saveSettings w).2) 2.
Proof.
  assert (loaded (set_settings no_colors world1)) as Hl.
  { exists 6. split; [reflexivity|]. by_evaluation. }
  assert (well_formed (document (set_settings no_colors world1))) as Hwf.
  { by_evaluation. }
  destruct (saveSettings_syncs _ Hl Hwf) as (H1 & _ & _ & H4 & H5 & H6).
  split; [exact H1|]. split; [exact (H4 6 eq_refl)|]. split.
  - etrans; [exact H5|]. vm_compute. reflexivity.
  - intros Hin. apply H6 in Hin. discriminate Hin.
Defined.

Lemma onload_eq (data : option StoredData) w :
  onload data w = saveSettings (attachStyle (loadSettings data w)).
Proof. reflexivity. Qed.

Lemma filter_ne_id (l : list nat) n : n ∉ l → filter (λ m, m ≠ n) l = l.
Proof.
  induction l as [|a l IH]; [done|]. rewrite not_elem_of_cons.
  intros [Hna Hnl]. rewrite filter_cons, decide_True by done. by rewrite IH.
Qed.

(** An address without object is nowhere in a well-formed tree. *)
Lemma well_formed_not_in d n :
  well_formed d → heap d !! n = None →
  (n ∉ head_children d) ∧ (n ∉ body_descendants d) ∧ n ≠ body d.
Proof.
  unfold well_formed. rewrite Forall_forall. intros Hwf Hn.
  assert (n ∉ tree_order d) as Hnot.
  { intros Hin. apply Hwf in Hin. rewrite Hn in Hin. by destruct Hin. }
  unfold tree_order in Hnot. set_solver.
Qed.

(** Lines 86-88: what creating and attaching the style element does. *)
Lemma attachStyle_facts w :
  well_formed (document w) →
  let n := fresh (dom (heap (document w))) in
  let w' := attachStyle w in
  styleElement (this w') = Some n ∧
  settings (this w') = settings (this w) ∧
  leaves w' = leaves w ∧
  heap (document w) !! n = None ∧
  heap (document w') !! n =
    Some (mkElement "style" {[ "id" := "nested-folder-lines-styles" ]}
            ∅ ∅ "") ∧
  (∀ k, k ≠ n → heap (document w') !! k = heap (document w) !! k) ∧
  documentElement (document w') = documentElement (document w) ∧
  head (document w') = head (document w) ∧
  body (document w') = body (document w) ∧
  head_children (document w') = head_children (document w) ++ [n] ∧
  body_descendants (document w') = body_descendants (document w).
Proof.
  intros Hwf. cbv zeta.
  assert (heap (document w) !! fresh (dom (heap (document w))) = None)
    as Hfresh by (apply not_elem_of_dom, is_fresh).
  destruct (well_formed_not_in _ _ Hwf Hfresh) as (Hhc & Hbd & Hb).
  unfold attachStyle, createElement, head_appendChild, remove, update.
  cbn [this document set_document set_styleElement styleElement settings
       leaves heap documentElement head body head_children body_descendants].
  split_and!; try done.
  - rewrite lookup_alter_eq, lookup_insert_eq. simpl. unfold set_id. simpl.
    by rewrite insert_empty.
  - intros k Hk. by rewrite lookup_alter_ne, lookup_insert_ne.
  - by rewrite filter_ne_id.
  - by rewrite filter_ne_id.
Qed.

(** The heap after [saveSettings], object by object. *)
Lemma saveSettings_lookup w n k :
  styleElement (this w) = Some n →
  (saveSettings w).1 = Normal ∧
  heap (document (saveSettings w).2) !! k =
  focusMark
    (set_focusedPaths (resolve (openIdentifiers (leaves w)))
       (updateBaseStyles w).2) k <$>
  ((if decide (k = n)
    then set_textContent
           (rules (LineStyle_to_string (lineStyle (settings (this w))))
                  (color_text (settings (this w))) maxLevels)
    else id) <$>
   ((if decide (k = body (document w))
     then style_setProperty (parseCustomValue (document w))
            unfocused_property (unfocusedColor (settings (this w)))
     else id) <$> heap (document w) !! k)).
Proof.
  intros Hn.
  destruct (updateBaseStyles_fields w n Hn) as (Hc & _ & Hl & _).
  pose proof (updateBaseStyles_lookup w n k Hn) as Hlook.
  unfold saveSettings.
  destruct (updateBaseStyles w) as [c w1] eqn:Hrun.
  cbn [fst snd] in *. subst c.
  rewrite (andThen_normal _ _ _ _ Hrun). unfold total. cbn [fst snd].
  split; [done|]. by rewrite updateFocusedPaths_lookup, Hlook, Hl.
Qed.

Lemma saveSettings_fields w n :
  styleElement (this w) = Some n →
  let w' := (saveSettings w).2 in
  styleElement (this w') = Some n ∧
  settings (this w') = settings (this w) ∧
  leaves w' = leaves w ∧
  focusedPaths (this w') = resolve (openIdentifiers (leaves w)) ∧
  documentElement (document w') = documentElement (document w) ∧
  head (document w') = head (document w) ∧
  body (document w') = body (document w) ∧
  head_children (document w') = head_children (document w) ∧
  body_descendants (document w') = body_descendants (document w).
Proof.
  intros Hn. cbv zeta.
  destruct (updateBaseStyles_fields w n Hn)
    as (Hc & Hthis & Hl & H1 & H2 & H3 & H4 & H5).
  unfold saveSettings.
  destruct (updateBaseStyles w) as [c w1] eqn:Hrun.
  cbn [fst snd] in *. subst c.
  rewrite (andThen_normal _ _ _ _ Hrun). unfold total. cbn [fst snd].
  destruct (updateFocusedPaths_fields w1)
    as (G1 & G2 & G3 & G4 & G5 & G6 & G7 & G8).
  cbv zeta in *.
  rewrite updateFocusedPaths_resolve, G1, G2, G3, G4, G5, G6, G7, G8,
    Hthis, Hl, H1, H2, H3, H4, H5.
  done.
Qed.



Lemma updateFocusedPaths_engine w :
  parseCustomValue (document (updateFocusedPaths w)) =
  parseCustomValue (document w).
Proof.
  unfold updateFocusedPaths. cbv zeta. by rewrite updateFocusStyles_engine.
Qed.

Lemma property_after_settled d (d' : Document) (value : string) :
  body d' = body d →
  parseCustomValue d' = parseCustomValue d →
  style_of d' (body d) !! unfocused_property =
    property_after (parseCustomValue d) value
      (style_of d (body d) !! unfocused_property) →
  property_settled d' value.
Proof.
  intros Hb He Hp. unfold property_settled. rewrite Hb, He, Hp.
  unfold property_after. split.
  - intros ->. by rewrite decide_True.
  - intros kept Hne Hk. by rewrite decide_False, Hk.
Qed.

Lemma property_settled_ext d (d' : Document) (value : string) :
  body d' = body d →
  parseCustomValue d' = parseCustomValue d →
  style_of d' (body d) !! unfocused_property =
    style_of d (body d) !! unfocused_property →
  property_settled d value → property_settled d' value.
Proof.
  intros Hb He Hp. unfold property_settled. by rewrite Hb, He, Hp.
Qed.

(** [saveSettings] brings a loaded plugin in sync. *)
Lemma saveSettings_in_sync w n :
  attached n w →
  is_Some (heap (document w) !! body (document w)) →
  (saveSettings w).1 = Normal ∧ in_sync (saveSettings w).2.
Proof.
  intros (Hn & Hel & Hin) Hb.
  destruct (saveSettings_run w n Hn Hel Hb)
    as (H1 & H2 & H3 & _ & _ & H6 & H7 & H8 & H9 & H10 & H11 & H12).
  pose proof (saveSettings_engine w n Hn) as He.
  cbv zeta in *. split; [done|].
  unfold in_sync. cbv zeta. rewrite H3.
  split_and!; try done.
  - apply (property_after_settled (document w)); [done|done|].
    rewrite H6 in H11. exact H11.
  - exists n. split; [|done]. split_and!; try done. by rewrite H7.
Qed.

(** A resolution keeps the plugin in sync. *)
Lemma updateFocusedPaths_in_sync w : in_sync w → in_sync (updateFocusedPaths w).
Proof.
  unfold in_sync. cbv zeta.
  intros ([elb Hb] & Hst & Hcl & n & (Hn & [eln Hel] & Hin) & Htx).
  destruct (updateFocusedPaths_fields w)
    as (G1 & G2 & _ & _ & _ & G6 & G7 & _).
  cbv zeta in *. rewrite G2.
  pose proof (updateFocusedPaths_lookup w (body (document w))) as Lb.
  pose proof (updateFocusedPaths_lookup w n) as Ln.
  rewrite Hb in Lb. rewrite Hel in Ln.
  split; [by rewrite G6, Lb|].
  split.
  { apply (property_settled_ext (document w));
      [done|apply updateFocusedPaths_engine| |done].
    unfold style_of. rewrite Lb, Hb. simpl. by rewrite focusMark_style. }
  rewrite G6.
  unfold classes_of, text_of, attached in *.
  rewrite Hb in Hcl. rewrite Hel in Htx. rewrite Lb.
  split.
  - simpl.
    match goal with |- context [focusMark ?ww _ ?e] =>
      pose proof (focusMark_focus_class ww e) as Hfc end.
    exact Hfc.
  - exists n. rewrite G1, G7, Ln. split; [by split_and!|].
    simpl. by rewrite focusMark_textContent.
Qed.

Lemma handle_in_sync (e : Event) w :
  in_sync w → ∃ w', handle e w = (Normal, w') ∧ in_sync w'.
Proof.
  intros Hw. destruct e as [file| |s|ls]; simpl handle.
  - eexists. split; [done|]. destruct file; simpl; [|done].
    by apply updateFocusedPaths_in_sync.
  - eexists. split; [done|]. by apply updateFocusedPaths_in_sync.
  - rewrite (andThen_normal _ _ w (set_settings s w)) by done.
    destruct Hw as (Hb & _ & _ & n & Hatt & _).
    destruct (saveSettings_in_sync (set_settings s w) n Hatt Hb) as [Hc Hs].
    destruct (saveSettings (set_settings s w)) as [c w'].
    simpl in Hc. subst c. by exists w'.
  - eexists. split; [done|]. exact Hw.
Qed.

Lemma run_in_sync (es : list Event) w :
  in_sync w → (run es w).1 = Normal ∧ in_sync (run es w).2.
Proof.
  revert w. induction es as [|e es IH]; intros w Hw; [done|].
  simpl run. destruct (handle_in_sync e w Hw) as (w' & He & Hw').
  rewrite (andThen_normal _ _ _ _ He). by apply IH.
Qed.

Lemma onload_in_sync (data : option StoredData) w :
  well_formed (document w) →
  (onload data w).1 = Normal ∧ in_sync (onload data w).2.
Proof.
  intros Hwf. rewrite onload_eq.
  assert (well_formed (document (loadSettings data w))) as Hwf1 by done.
  destruct (attachStyle_facts _ Hwf1)
    as (A1 & _ & _ & A4 & A5 & A6 & _ & _ & A9 & A10 & _).
  cbv zeta in *.
  destruct (well_formed_not_in _ _ Hwf1 A4) as (_ & _ & Hnb).
  eapply saveSettings_in_sync.
  - split; [exact A1|]. split; [by rewrite A5|].
    rewrite A10. set_solver.
  - rewrite A9, A6 by done. by apply well_formed_body.
Qed.

(** X16. At every point of a session, after [onload] and any number of
    events, nothing has raised and what is shown agrees with the
    settings: the style element is still attached to the head and holds
    the rules of the current settings, and the body carries the custom
    property and the focus-mode class they ask for. *)
Theorem session_in_sync (data : option StoredData) (es : list Event) w :
  well_formed (document w) →
  ((onload data ;> run es) w).1 = Normal ∧
  in_sync ((onload data ;> run es) w).2.
Proof.
  intros Hwf. destruct (onload_in_sync data w Hwf) as [Hc Hs].
  destruct (onload data w) as [c w1] eqn:Hload. simpl in Hc, Hs. subst c.
  rewrite (andThen_normal _ _ _ _ Hload). by apply run_in_sync.
Qed.

Lemma session_in_sync_witness :
  let es := [LeavesChanged [leaf_of "B.md"]; LayoutChange;
             SettingsChanged two_colors; FileOpen None] in
  ((onload None ;> run es) world0).1 = Normal ∧
  in_sync ((onload None ;> run es) world0).2.
Proof.
  apply (session_in_sync None
           [LeavesChanged [leaf_of "B.md"]; LayoutChange;
            SettingsChanged two_colors; FileOpen None] world0).
  by_evaluation.
Defined.

Lemma same_but_marks_refl el : same_but_marks el el.
Proof. unfold same_but_marks. by split_and!. Qed.

Lemma same_but_marks_trans (el1 el2 el3 : Element) :
  same_but_marks el1 el2 → same_but_marks el2 el3 → same_but_marks el1 el3.
Proof.
  intros (A1 & A2 & A3 & A4 & A5) (B1 & B2 & B3 & B4 & B5).
  unfold same_but_marks. split_and!; try congruence.
  - intros c Hc1 Hc2. rewrite B4, A4 by done. done.
  - intros p Hp. rewrite B5, A5 by done. done.
Qed.

Lemma style_setProperty_same (parse : string → option string)
    (value : string) el :
  same_but_marks el (style_setProperty parse unfocused_property value el).
Proof.
  unfold same_but_marks, style_setProperty. simpl. split_and!; try done.
  intros p Hp. case_decide; [by rewrite lookup_delete_ne|].
  destruct (parse value); [by rewrite lookup_insert_ne|done].
Qed.

Lemma classList_remove_same el :
  same_but_marks el (classList_remove focus_class el).
Proof.
  unfold same_but_marks, classList_remove. simpl. split_and!; try done.
  intros c Hc _. set_solver.
Qed.

Lemma updateFocusedPaths_in_session (w0 : World) w n :
  in_session w0 w n → in_session w0 (updateFocusedPaths w) n.
Proof.
  intros ((Hn & Hel & Hin) & Hfresh & (F1 & F2 & F3 & F4 & F5) & Hhc).
  destruct (updateFocusedPaths_fields w)
    as (G1 & _ & _ & G4 & G5 & G6 & G7 & G8).
  cbv zeta in *. unfold in_session, attached, framed.
  rewrite G1, G4, G5, G6, G7, G8, !updateFocusedPaths_lookup.
  split_and!; try done.
  - by apply fmap_is_Some.
  - intros k el0 Hk. destruct (F5 k el0 Hk) as (el & Hel' & Hsame).
    rewrite updateFocusedPaths_lookup, Hel'. eexists. split; [done|].
    eapply same_but_marks_trans; [exact Hsame|].
    apply focusMark_same_but_marks.
Qed.

Lemma saveSettings_in_session (w0 : World) w n :
  in_session w0 w n →
  (saveSettings w).1 = Normal ∧ in_session w0 (saveSettings w).2 n.
Proof.
  intros ((Hn & Hel & Hin) & Hfresh & (F1 & F2 & F3 & F4 & F5) & Hhc).
  destruct (saveSettings_fields w n Hn)
    as (G1 & _ & _ & _ & G4 & G5 & G6 & G7 & G8).
  cbv zeta in *. split; [by apply (saveSettings_lookup w n n)|].
  unfold in_session, attached, framed. rewrite G1, G4, G5, G6, G7, G8.
  split_and!; try done.
  - destruct (saveSettings_lookup w n n Hn) as [_ ->].
    by rewrite !fmap_is_Some.
  - intros k el0 Hk. destruct (F5 k el0 Hk) as (el & Hel' & Hsame).
    destruct (saveSettings_lookup w n k Hn) as [_ ->].
    assert (k ≠ n) as Hkn by (intros ->; congruence).
    rewrite Hel', (decide_False (P := k = n)) by done.
    cbn [fmap option_fmap option_map id]. eexists. split; [done|].
    eapply same_but_marks_trans; [exact Hsame|].
    eapply same_but_marks_trans; [|apply focusMark_same_but_marks].
    case_decide; [apply style_setProperty_same|apply same_but_marks_refl].
Qed.

Lemma handle_in_session (w0 : World) (e : Event) w n :
  in_session w0 w n → ∃ w', handle e w = (Normal, w') ∧ in_session w0 w' n.
Proof.
  intros Hw. destruct e as [file| |s|ls]; simpl handle.
  - eexists. split; [done|]. destruct file; simpl; [|done].
    by apply updateFocusedPaths_in_session.
  - eexists. split; [done|]. by apply updateFocusedPaths_in_session.
  - rewrite (andThen_normal _ _ w (set_settings s w)) by done.
    assert (in_session w0 (set_settings s w) n) as Hs by exact Hw.
    destruct (saveSettings_in_session w0 _ n Hs) as [Hc Hs'].
    destruct (saveSettings (set_settings s w)) as [c w'].
    simpl in Hc. subst c. by exists w'.
  - eexists. split; [done|]. exact Hw.
Qed.

Lemma run_in_session (w0 : World) (es : list Event) w n :
  in_session w0 w n →
  (run es w).1 = Normal ∧ in_session w0 (run es w).2 n.
Proof.
  revert w. induction es as [|e es IH]; intros w Hw; [done|].
  simpl run. destruct (handle_in_session w0 e w n Hw) as (w' & He & Hw').
  rewrite (andThen_normal _ _ _ _ He). by apply IH.
Qed.

Lemma onload_in_session (data : option StoredData) w :
  well_formed (document w) →
  ∃ n, (onload data w).1 = Normal ∧ in_session w (onload data w).2 n.
Proof.
  intros Hwf. rewrite onload_eq.
  assert (well_formed (document (loadSettings data w))) as Hwf1 by done.
  destruct (attachStyle_facts _ Hwf1)
    as (A1 & _ & _ & A4 & A5 & A6 & A7 & A8 & A9 & A10 & A11).
  cbv zeta in *.
  change (document (loadSettings data w)) with (document w) in *.
  set (n := fresh (dom (heap (document w)))) in *.
  exists n. apply saveSettings_in_session.
  unfold in_session, attached, framed.
  rewrite A5, A7, A8, A9, A10, A11.
  split; [split_and!; [done|done|set_solver]|].
  split; [done|]. split; [|done]. split_and!; try done.
  intros k el Hk. exists el. split; [|apply same_but_marks_refl].
  rewrite A6; [done|]. intros ->. congruence.
Qed.

(** X17. A whole session, from [onload] through any events to
    [onunload], completes normally and gives the tree back: the head has
    the children it had, and so has the body.  Every element that was
    there keeps its name, its attributes and its text; only the two class
    tokens and the custom property of the inline style may differ. *)
Theorem session_frame (data : option StoredData) (es : list Event) w :
  well_formed (document w) →
  let r := (onload data ;> run es ;> onunload) w in
  r.1 = Normal ∧
  head_children (document r.2) = head_children (document w) ∧
  framed (document w) (document r.2).
Proof.
  intros Hwf. cbv zeta.
  destruct (onload_in_session data w Hwf) as (n & Hc & Hs).
  destruct (onload data w) as [c w1] eqn:Hload. simpl in Hc, Hs. subst c.
  rewrite (andThen_normal _ _ _ _ Hload).
  destruct (run_in_session w es w1 n Hs) as [Hc Hs'].
  destruct (run es w1) as [c w2] eqn:Hrun. simpl in Hc, Hs'. subst c.
  rewrite (andThen_normal _ _ _ _ Hrun).
  destruct Hs' as ((Hn & Hel & Hin) & Hfresh & (F1 & F2 & F3 & F4 & F5) & Hhc).
  destruct (well_formed_not_in _ _ Hwf Hfresh) as (Nhc & Nbd & Nb).
  unfold onunload. rewrite Hn. cbn [fst snd set_document document].
  split; [done|]. unfold framed, update, remove.
  cbn [heap documentElement head body head_children body_descendants].
  split_and!; try done.
  - rewrite Hhc, filter_app, filter_ne_id by done.
    rewrite filter_cons, decide_False by (intros H; by apply H).
    by rewrite filter_nil, app_nil_r.
  - by rewrite F4, filter_ne_id.
  - intros k el0 Hk. destruct (F5 k el0 Hk) as (el & Hel' & Hsame).
    rewrite lookup_alter.
    case_decide as Hkb.
    + subst k. rewrite Hel'. eexists. split; [done|].
      eapply same_but_marks_trans; [exact Hsame|apply classList_remove_same].
    + exists el. by split.
Qed.

Lemma session_frame_witness :
  let es := [LeavesChanged [leaf_of "B.md"]; LayoutChange;
             SettingsChanged two_colors] in
  let r := (onload None ;> run es ;> onunload) world0 in
  r.1 = Normal ∧
  head_children (document r.2) = head_children (document world0) ∧
  framed (document world0) (document r.2).
Proof.
  apply (session_frame None
           [LeavesChanged [leaf_of "B.md"]; LayoutChange;
            SettingsChanged two_colors] world0).
  by_evaluation.
Defined.

End session.

(* ===================================================================== *)
(** ** The callbacks of the settings tab *)
(* ===================================================================== *)

Section settings_tab.

Implicit Types (w : World) (n k i : nat) (p value : string).

Lemma updateBaseStyles_attribute w n k (name : string) :
  styleElement (this w) = Some n →
  attribute_of (document (updateBaseStyles w).2) k name =
  attribute_of (document w) k name.
Proof.
  intros Hn. unfold attribute_of. rewrite (updateBaseStyles_lookup w n k Hn).
  destruct (heap (document w) !! k) as [el|]; [|done].
  by repeat case_decide.
Qed.

(** The [focused] class of a tracked element after [saveSettings]. *)
Lemma saveSettings_marks w n k p :
  styleElement (this w) = Some n →
  k ∈ tree_order (document w) →
  attribute_of (document w) k "data-path" = Some p →
  "focused" ∈ classes_of (document (saveSettings w).2) k ↔
  ∃ id, id ∈ openIdentifiers (leaves w) ∧ (p = id ∨ continued_by_slash p id).
Proof.
  intros Hn Hk Hp.
  destruct (updateBaseStyles_fields w n Hn) as (Hc & _ & Hl & _).
  pose proof (updateBaseStyles_attribute w n k "data-path" Hn) as Hattr.
  assert (tree_order (document (updateBaseStyles w).2) =
          tree_order (document w)) as Htree
    by by rewrite (updateBaseStyles_run w n Hn).
  unfold saveSettings.
  destruct (updateBaseStyles w) as [c w1] eqn:Hrun.
  cbn [fst snd] in *. subst c.
  rewrite (andThen_normal _ _ _ _ Hrun). unfold total. cbn [fst snd].
  rewrite <- Hl, <- elem_of_resolve_chars, <- (updateFocusedPaths_resolve w1).
  unfold updateFocusedPaths at 1. cbv zeta.
  rewrite <- Htree in Hk. rewrite <- Hattr in Hp.
  rewrite marks_after_marking; [|exact Hk|exact Hp].
  unfold updateFocusedPaths. by rewrite updateFocusStyles_this.
Qed.

Lemma color_text_insert (s : NFLSettings) i value (d : nat) (dflt : string) :
  i < length (colors s) →
  color_text {| colors := <[i := value]> (colors s);
                unfocusedColor := unfocusedColor s;
                enableFocus := enableFocus s;
                lineStyle := lineStyle s |} d =
  if decide (d mod length (colors s) = i) then value
  else nth (d mod length (colors s)) (colors s) dflt.
Proof.
  intros Hi.
  rewrite (color_text_cycle _ d dflt); simpl.
  - rewrite length_insert, !nth_lookup.
    assert (d mod length (colors s) < length (colors s)) as Hlt
      by (apply Nat.mod_upper_bound; lia).
    case_decide as Hd.
    + subst i. by rewrite list_lookup_insert_eq.
    + by rewrite list_lookup_insert_ne.
  - intros Hnil%(f_equal length). rewrite length_insert in Hnil.
    simpl in Hnil. lia.
Qed.

(** X18. Color picker [i], for a level the palette has: the callback
    completes normally, and in the regenerated stylesheet exactly the
    depths [d] with [d mod length colors = i] take the new color; the
    other depths keep theirs. *)
Theorem color_onChange_recolors i value (dflt : string) w :
  loaded w →
  i < length (colors (settings (this w))) →
  let s := settings (this w) in
  ∃ r, color_onChange i value w = Some r ∧ r.1 = Normal ∧
       ∀ n, styleElement (this w) = Some n →
            text_of (document r.2) n =
            rules (LineStyle_to_string (lineStyle s))
                  (λ d, if decide (d mod length (colors s) = i) then value
                        else nth (d mod length (colors s)) (colors s) dflt)
                  10.
Proof.
  intros (n & Hn & Hel) Hi. cbv zeta.
  unfold color_onChange, array_assign. rewrite decide_True by done.
  eexists. split; [done|].
  match goal with |- context [saveSettings ?x] => set (w' := x) end.
  assert (styleElement (this w') = Some n) as Hn' by done.
  destruct (saveSettings_lookup w' n n Hn') as [Hc Hlook].
  split; [done|]. intros m Hm. simplify_eq.
  unfold text_of. rewrite Hlook.
  change (heap (document w')) with (heap (document w)).
  destruct Hel as [el ->]. rewrite (decide_True (P := n = n)) by done.
  cbn [fmap option_fmap option_map default from_option].
  rewrite focusMark_textContent.
  destruct (decide (n = body (document w'))); simpl;
    apply rules_ext; intros d _; by apply color_text_insert.
Qed.

Lemma color_onChange_recolors_witness :
  ∃ r, color_onChange 1 "#abcdef" world1 = Some r ∧ r.1 = Normal ∧
       ∀ n, styleElement (this world1) = Some n →
            text_of (document r.2) n =
            rules "solid"
              (λ d, if decide (d mod 5 = 1) then "#abcdef"
                    else nth (d mod 5) (colors DEFAULT_SETTINGS) "") 10.
Proof.
  apply (color_onChange_recolors 1 "#abcdef" "" world1).
  - exists 6. split; [reflexivity|]. by_evaluation.
  - by_evaluation.
Defined.

(** X19. The focus toggle: the callback completes normally, the body
    carries the focus-mode class exactly when the new value is true, and
    whatever the value the tracked elements are marked by the open
    identifiers. *)
Theorem enableFocus_onChange_toggles (b : bool) w :
  loaded w → well_formed (document w) →
  let r := enableFocus_onChange b w in
  r.1 = Normal ∧
  (focus_class ∈ classes_of (document r.2) (body (document w)) ↔ b = true) ∧
  (∀ k p, k ∈ tree_order (document w) →
          attribute_of (document w) k "data-path" = Some p →
          ("focused" ∈ classes_of (document r.2) k ↔
           ∃ id, id ∈ openIdentifiers (leaves w) ∧
                 (p = id ∨ continued_by_slash p id))).
Proof.
  intros (n & Hn & Hel) Hwf. cbv zeta. unfold enableFocus_onChange.
  match goal with |- context [saveSettings ?x] => set (w' := x) end.
  assert (styleElement (this w') = Some n) as Hn' by done.
  destruct (saveSettings_run w' n Hn' Hel (well_formed_body _ Hwf))
    as (H1 & _ & _ & _ & _ & H6 & _ & _ & _ & _ & _ & H12).
  cbv zeta in *. rewrite H6 in H12.
  split; [done|]. split; [exact H12|].
  intros k p Hk Hp. by apply (saveSettings_marks w' n).
Qed.

Lemma enableFocus_onChange_toggles_witness :
  let r := enableFocus_onChange false world1 in
  r.1 = Normal ∧
  ¬ focus_class ∈ classes_of (document r.2) 2 ∧
  "focused" ∈ classes_of (document r.2) 3.
Proof.
  assert (loaded world1) as Hl.
  { exists 6. split; [reflexivity|]. by_evaluation. }
  assert (well_formed (document world1)) as Hwf by by_evaluation.
  destruct (enableFocus_onChange_toggles false world1 Hl Hwf)
    as (H1 & H2 & H3).
  split; [exact H1|]. split.
  - intros Hin. apply H2 in Hin. discriminate Hin.
  - apply (H3 3 "A"); [by_evaluation|reflexivity|].
    exists "A/x.md". split; [by_evaluation|]. right. by exists "x.md".
Defined.

(** X20. The unfocused-color picker: the callback completes normally and
    calls [setProperty] with the new value on the body, so that the
    custom property is removed for the empty value, stays as it was for
    a value the engine of the document does not take, and otherwise
    becomes what the engine keeps of the value; the rules in the style
    element do not depend on the value. *)
Theorem unfocusedColor_onChange_sets value w :
  loaded w → well_formed (document w) →
  let s := settings (this w) in
  let r := unfocusedColor_onChange value w in
  r.1 = Normal ∧
  style_of (document r.2) (body (document w)) !! unfocused_property =
    property_after (parseCustomValue (document w)) value
      (style_of (document w) (body (document w)) !! unfocused_property) ∧
  (∀ n, styleElement (this w) = Some n →
        text_of (document r.2) n =
        rules (LineStyle_to_string (lineStyle s)) (color_text s) maxLevels).
Proof.
  intros (n & Hn & Hel) Hwf. cbv zeta. unfold unfocusedColor_onChange.
  match goal with |- context [saveSettings ?x] => set (w' := x) end.
  assert (styleElement (this w') = Some n) as Hn' by done.
  destruct (saveSettings_run w' n Hn' Hel (well_formed_body _ Hwf))
    as (H1 & _ & _ & _ & _ & H6 & _ & _ & _ & H10 & H11 & _).
  cbv zeta in *. rewrite H6 in H11.
  split; [done|]. split; [exact H11|].
  intros m Hm. simplify_eq. exact H10.
Qed.

Lemma unfocusedColor_onChange_sets_witness :
  (unfocusedColor_onChange "" world1).1 = Normal ∧
  style_of (document (unfocusedColor_onChange "" world1).2) 2
    !! unfocused_property = None ∧
  style_of (document (unfocusedColor_onChange "#123456" world1).2) 2
    !! unfocused_property = Some "#123456" ∧
  text_of (document (unfocusedColor_onChange "#123456" world1).2) 6 =
    rules "solid" (color_text DEFAULT_SETTINGS) maxLevels.
Proof.
  assert (loaded world1) as Hl.
  { exists 6. split; [reflexivity|]. by_evaluation. }
  assert (well_formed (document world1)) as Hwf by by_evaluation.
  destruct (unfocusedColor_onChange_sets "" world1 Hl Hwf) as (H1 & H2 & _).
  destruct (unfocusedColor_onChange_sets "#123456" world1 Hl Hwf)
    as (_ & H3 & H4).
  split; [exact H1|]. split; [exact H2|]. split; [|exact (H4 6 eq_refl)].
  etrans; [exact H3|]. vm_compute. reflexivity.
Defined.

(** In the example document a padded value is kept without its padding
    and a value with a semicolon is ignored, so that the property stays
    what it was. *)
Example unfocusedColor_onChange_padded_and_invalid :
  style_of (document (unfocusedColor_onChange " #123456 " world1).2) 2
    !! unfocused_property = Some "#123456" ∧
  style_of (document (unfocusedColor_onChange "red;" world1).2) 2
    !! unfocused_property = Some "#999999".
Proof. split; vm_compute; reflexivity. Qed.

(** X21. The line-style dropdown: the callback completes normally and
    every rule of the regenerated stylesheet uses the new line style with
    the colors as they were. *)
Theorem lineStyle_onChange_restyles (value : LineStyle) w :
  loaded w →
  let s := settings (this w) in
  let r := lineStyle_onChange value w in
  r.1 = Normal ∧
  (∀ n, styleElement (this w) = Some n →
        text_of (document r.2) n =
        rules (LineStyle_to_string value) (color_text s) maxLevels).
Proof.
  intros (n & Hn & Hel). cbv zeta. unfold lineStyle_onChange.
  match goal with |- context [saveSettings ?x] => set (w' := x) end.
  assert (styleElement (this w') = Some n) as Hn' by done.
  destruct (saveSettings_lookup w' n n Hn') as [Hc Hlook].
  split; [done|]. intros m Hm. simplify_eq.
  unfold text_of. rewrite Hlook.
  change (heap (document w')) with (heap (document w)).
  destruct Hel as [el ->]. rewrite (decide_True (P := n = n)) by done.
  cbn [fmap option_fmap option_map default from_option].
  rewrite focusMark_textContent. by case_decide.
Qed.

Lemma lineStyle_onChange_restyles_witness :
  let r := lineStyle_onChange dotted world1 in
  r.1 = Normal ∧
  (∀ n, styleElement (this world1) = Some n →
        text_of (document r.2) n =
        rules "dotted" (color_text DEFAULT_SETTINGS) maxLevels).
Proof.
  apply (lineStyle_onChange_restyles dotted world1).
  exists 6. split; [reflexivity|]. by_evaluation.
Defined.

End settings_tab.

(* ===================================================================== *)
(** ** Repeated events *)
(* ===================================================================== *)

Section repeated.

Implicit Types (w : World).

(** Marking twice is marking once. *)
Lemma updateFocusStyles_again w :
  updateFocusStyles (updateFocusStyles w) = updateFocusStyles w.
Proof.
  apply World_ext; [done| |done].
  destruct (updateFocusStyles_frame (updateFocusStyles w))
    as (H1 & H2 & H3 & H4 & H5).
  apply Document_ext; try done; [|apply updateFocusStyles_engine].
  apply map_eq. intros k.
  rewrite (updateFocusStyles_lookup (updateFocusStyles w)).
  rewrite updateFocusStyles_lookup.
  destruct (heap (document w) !! k) as [el|]; simpl; [|done].
  by rewrite focusMark_twice.
Qed.

(** X22. A layout-change event that arrives twice in a row, with the
    leaves unchanged in between, does nothing the second time: the whole
    state is as the first one left it. *)
Theorem on_layout_change_idempotent w :
  on_layout_change (on_layout_change w) = on_layout_change w.
Proof.
  unfold on_layout_change.
  set (W := set_focusedPaths
              (foldl visitLeaf ∅ (getLeavesOfType "markdown" (leaves w)))
              (set_focusedPaths ∅ w)).
  change (updateFocusedPaths w) with (updateFocusStyles W).
  change (updateFocusedPaths (updateFocusStyles W))
    with (updateFocusStyles (updateFocusStyles W)).
  apply updateFocusStyles_again.
Qed.

End repeated.
